(** * faceswap: colour adjustment, training configuration and the DFL-H128 model

    A shallow embedding of three source files of the repository
    - [plugins/convert/color/avg_color.py]   ([Module AvgColor]),
    - [plugins/train/_config.py]             ([Module TrainConfig]),
    - [plugins/train/model/dfl_h128.py]      ([Module DflH128]),
    together with the statements about them.

    Python exceptions are modelled by the [outcome] type, Python objects
    that are mutated in place by explicit state passing, numpy arrays by
    nested lists carrying their shape and element type. *)

From Stdlib Require Import ZArith QArith List String Ascii Lia Bool.
From stdpp Require Import base option list gmap strings.

Open Scope string_scope.

(** ** Python runtime: exceptions and results *)

Module Py.

Inductive exn : Type :=
  | ImportError
  | AttributeError
  | KeyError
  | TypeError
  | ValueError
  | ZeroDivisionError.

(** The result of evaluating an expression: a value, or a raised exception. *)
Inductive outcome (A : Type) : Type :=
  | Ok (a : A)
  | Raise (e : exn).

Arguments Ok {A} a.
Arguments Raise {A} e.

#[global] Instance outcome_ret : MRet outcome := fun A a => Ok a.
#[global] Instance outcome_bind : MBind outcome :=
  fun A B f m => match m with Ok a => f a | Raise e => Raise e end.

Definition is_ok {A} (o : outcome A) : bool :=
  match o with Ok _ => true | Raise _ => false end.

(** The Python values that occur as option values. *)
Inductive pyval : Type :=
  | VNone
  | VBool (b : bool)
  | VInt (z : Z)
  | VFloat (q : Q)
  | VStr (s : string).

(** Truth value of an object in a condition. *)
Definition truthy (v : pyval) : bool :=
  match v with
  | VNone => false
  | VBool b => b
  | VInt z => negb (Z.eqb z 0)
  | VFloat q => negb (Qeq_bool q 0)
  | VStr s => negb (String.eqb s "")
  end.

End Py.

(** ** plugins/convert/color/avg_color.py *)

Module AvgColor.
Import Py.

(** Element types of the arrays, with numpy's promotion table on them. *)
Inductive dtype : Type := UInt8 | Int64 | Float32 | Float64.

Definition is_integer (d : dtype) : bool :=
  match d with UInt8 | Int64 => true | Float32 | Float64 => false end.

Definition is_floating (d : dtype) : bool := negb (is_integer d).

Definition result_type (a b : dtype) : dtype :=
  match a, b with
  | Float64, _ | _, Float64 => Float64
  | Float32, Int64 | Int64, Float32 => Float64
  | Float32, _ | _, Float32 => Float32
  | Int64, _ | _, Int64 => Int64
  | UInt8, UInt8 => UInt8
  end.

(** The element arithmetic.  The source computes on [float32] values; no
    law of the arithmetic is assumed, so every statement below holds for
    rounding arithmetic as well as for exact arithmetic. *)
Class Arith (F : Type) : Type := {
  zero : F;
  add : F -> F -> F;
  sub : F -> F -> F;
  mul : F -> F -> F;
  div : F -> F -> F;
  eq_zero : F -> bool
}.

Section Process.
Context {F : Type} `{Arith F}.

(** An array of shape (height, width, n_channels). *)
Record ndarray3 : Type := {
  dtype3 : dtype;
  height : nat;
  width : nat;
  channels : nat;
  data : list (list (list F))
}.

(** An array of shape (n,). *)
Record ndarray1 : Type := {
  dtype1 : dtype;
  items : list F
}.

Definition shape3 (a : ndarray3) : nat * nat * nat :=
  (height a, width a, channels a).

Definition shape_eqb (s t : nat * nat * nat) : bool :=
  match s, t with
  | (h1, w1, c1), (h2, w2, c2) =>
      Nat.eqb h1 h2 && Nat.eqb w1 w2 && Nat.eqb c1 c2
  end.

(** The nested lists agree with the declared shape. *)
Definition well_shaped (a : ndarray3) : bool :=
  Nat.eqb (length (data a)) (height a)
  && forallb (fun row =>
       Nat.eqb (length row) (width a)
       && forallb (fun px => Nat.eqb (length px) (channels a)) row) (data a).

(** [a.sum(axis=(0, 1))]: one total per channel. *)
Definition sum_axis01 (c : nat) (d : list (list (list F))) : list F :=
  fold_left
    (fun acc row => fold_left (fun acc px => zip_with add acc px) row acc)
    d (replicate c zero).

(** [np.multiply(a, w)] on arrays of equal shape. *)
Definition multiply (d1 d2 : list (list (list F))) : list (list (list F)) :=
  zip_with (zip_with (zip_with mul)) d1 d2.

(** [np.average(a, axis=(0, 1), weights=w)].  Weights of another shape
    than [a] are refused (they are not one-dimensional), weights that sum
    to zero in some channel raise [ZeroDivisionError]. *)
Definition average (a w : ndarray3) : outcome ndarray1 :=
  if negb (shape_eqb (shape3 a) (shape3 w)) then Raise TypeError
  else
    let result_dtype :=
      if is_integer (dtype3 a)
      then result_type (result_type (dtype3 a) (dtype3 w)) Float64
      else result_type (dtype3 a) (dtype3 w) in
    let scl := sum_axis01 (channels w) (data w) in
    if existsb eq_zero scl then Raise ZeroDivisionError
    else Ok {| dtype1 := result_dtype;
               items := zip_with div
                          (sum_axis01 (channels a) (multiply (data a) (data w)))
                          scl |}.

(** Broadcasting of two axis lengths. *)
Definition broadcast_len (n m : nat) : option nat :=
  if Nat.eqb n m then Some n
  else if Nat.eqb n 1 then Some m
  else if Nat.eqb m 1 then Some n
  else None.

Definition stretch (n : nat) (v : list F) : list F :=
  if Nat.eqb (length v) n then v else replicate n (hd zero v).

(** [x - y] on one-dimensional arrays. *)
Definition subtract (x y : ndarray1) : outcome ndarray1 :=
  match broadcast_len (length (items x)) (length (items y)) with
  | Some n =>
      Ok {| dtype1 := result_type (dtype1 x) (dtype1 y);
            items := zip_with sub (stretch n (items x)) (stretch n (items y)) |}
  | None => Raise ValueError
  end.

(** [a + v]: the vector is broadcast along the last axis. *)
Definition add_broadcast (a : ndarray3) (v : ndarray1) : outcome ndarray3 :=
  match broadcast_len (channels a) (length (items v)) with
  | Some n =>
      Ok {| dtype3 := result_type (dtype3 a) (dtype1 v);
            height := height a;
            width := width a;
            channels := n;
            data := map (map (fun px =>
                      zip_with add (stretch n px) (stretch n (items v))))
                      (data a) |}
  | None => Raise ValueError
  end.

(** [Color.process] *)
Definition process (old_face new_face raw_mask : ndarray3) : outcome ndarray3 :=
  old_mean ← average old_face raw_mask;
  new_mean ← average new_face raw_mask;
  shift ← subtract old_mean new_mean;
  add_broadcast new_face shift.

(** *** The specification's reading: per-channel weighted means *)

(** Element [a[i, j, k]] ([zero] outside the array). *)
Definition px (a : ndarray3) (i j k : nat) : F :=
  nth k (nth j (nth i (data a) []) []) zero.

(** The sum of [f i j] over the [h * w] pixel positions, row by row. *)
Definition sum_hw (h w : nat) (f : nat -> nat -> F) : F :=
  fold_left
    (fun acc i => fold_left (fun acc j => add acc (f i j)) (seq 0 w) acc)
    (seq 0 h) zero.

Definition weight_sum (m : ndarray3) (k : nat) : F :=
  sum_hw (height m) (width m) (fun i j => px m i j k).

(** The mask-weighted mean of channel [k] over the two spatial axes. *)
Definition weighted_mean (a m : ndarray3) (k : nat) : F :=
  div (sum_hw (height a) (width a) (fun i j => mul (px a i j k) (px m i j k)))
      (weight_sum m k).

(** The result type of [average]. *)
Definition average_dtype (a w : dtype) : dtype :=
  if is_integer a then result_type (result_type a w) Float64 else result_type a w.

(** The element type of the result of [process]. *)
Definition process_dtype (old new mask : dtype) : dtype :=
  result_type new (result_type (average_dtype old mask) (average_dtype new mask)).

(** Rows of pixels with [c] channels each, [w] pixels a row. *)
Definition pixels_ok (c : nat) (row : list (list F)) : Prop :=
  Forall (fun p => length p = c) row.

Definition rows_ok (w c : nat) (d : list (list (list F))) : Prop :=
  Forall (fun row => length row = w /\ pixels_ok c row) d.

(** The three arrays are well formed and of one shape. *)
Definition same_shapes (old_face new_face raw_mask : ndarray3) : Prop :=
  well_shaped old_face = true /\ well_shaped new_face = true
  /\ well_shaped raw_mask = true
  /\ shape3 old_face = shape3 raw_mask /\ shape3 new_face = shape3 raw_mask.

(** In every channel the weights sum to something that is not zero. *)
Definition weights_normalizable (raw_mask : ndarray3) : Prop :=
  forall k, (k < channels raw_mask)%nat -> eq_zero (weight_sum raw_mask k) = false.

(** The scalar analogue of [sum_axis01] for a reading [g] of a pixel. *)
Definition sum_nested (g : list F -> F) (d : list (list (list F))) (s : F) : F :=
  fold_left (fun acc row => fold_left (fun acc p => add acc (g p)) row acc) d s.

(** The mask has a weight that is not zero. *)
Definition has_nonzero_weight (m : ndarray3) : bool :=
  existsb (existsb (existsb (fun x => negb (eq_zero x)))) (data m).

(** Every weight of the mask is zero. *)
Definition all_zero_weights (m : ndarray3) : bool :=
  forallb (forallb (forallb eq_zero)) (data m).

End Process.

Arguments ndarray3 F : clear implicits.
Arguments ndarray1 F : clear implicits.

(** Exact rational arithmetic, used to run [process] on examples. *)
#[global] Instance Q_arith : Arith Q := {|
  zero := 0%Q;
  add := Qplus;
  sub := Qminus;
  mul := Qmult;
  div := Qdiv;
  eq_zero := fun q => Qeq_bool q 0%Q
|}.

(** *** Sample arrays *)

Definition image (d : list (list (list Q))) (h w c : nat) : ndarray3 Q :=
  {| dtype3 := Float32; height := h; width := w; channels := c; data := d |}.

(** One pixel, two channels; the mask weighs the first channel only. *)
Definition one_pixel_old : ndarray3 Q := image [[[100; 100]]]%Q 1 1 2.
Definition one_pixel_new : ndarray3 Q := image [[[50; 50]]]%Q 1 1 2.
Definition one_pixel_mask : ndarray3 Q := image [[[1; 0]]]%Q 1 1 2.
Definition one_pixel_full_mask : ndarray3 Q := image [[[1; 1]]]%Q 1 1 2.
Definition one_pixel_zero_mask : ndarray3 Q := image [[[0; 0]]]%Q 1 1 2.

(** Two rows of one pixel, two channels; the second channel of the mask
    is zero everywhere. *)
Definition column_old : ndarray3 Q := image [[[0.5; 0.5]]; [[0.25; 0.75]]]%Q 2 1 2.
Definition column_new : ndarray3 Q := image [[[0.25; 0.5]]; [[0.5; 1]]]%Q 2 1 2.
Definition column_mask : ndarray3 Q := image [[[1; 0]]; [[0.5; 0]]]%Q 2 1 2.
Definition column_full_mask : ndarray3 Q := image [[[1; 1]]; [[0.5; 0.5]]]%Q 2 1 2.

(** One pixel, two channels, as arrays of bytes ([uint8]). *)
Definition byte_image (d : list (list (list Q))) (h w c : nat) : ndarray3 Q :=
  {| dtype3 := UInt8; height := h; width := w; channels := c; data := d |}.

Definition byte_old : ndarray3 Q := byte_image [[[100; 100]]]%Q 1 1 2.
Definition byte_new : ndarray3 Q := byte_image [[[50; 50]]]%Q 1 1 2.
Definition byte_mask : ndarray3 Q := byte_image [[[1; 1]]]%Q 1 1 2.

(** One row of two pixels with values in the unit interval. *)
Definition bright_old : ndarray3 Q := image [[[1]; [1]]]%Q 1 2 1.
Definition bright_new : ndarray3 Q := image [[[0.9]; [0.1]]]%Q 1 2 1.
Definition bright_mask : ndarray3 Q := image [[[1]; [1]]]%Q 1 2 1.

End AvgColor.

(** ** Python strings and paths *)

Module PyStr.

Definition nl : string := String (ascii_of_nat 10) EmptyString.
Definition tab : string := String (ascii_of_nat 9) EmptyString.

(** [s.endswith(suffix)] *)
Definition endswith (s suffix : string) : bool :=
  let n := String.length s in
  let m := String.length suffix in
  Nat.leb m n && String.eqb (substring (n - m) m s) suffix.

(** [s.replace(old, new)] for a non-empty [old]: the occurrences of [old]
    are found from left to right without overlap; [skip] counts the
    characters of a found occurrence that are still to be passed over. *)
Fixpoint replace_from (old new : string) (skip : nat) (s : string) : string :=
  match s with
  | EmptyString => EmptyString
  | String c rest =>
      match skip with
      | S k => replace_from old new k rest
      | O =>
          if String.prefix old s
          then new ++ replace_from old new (String.length old - 1) rest
          else String c (replace_from old new 0 rest)
      end
  end.

Fixpoint insert_between (new s : string) : string :=
  match s with
  | EmptyString => EmptyString
  | String c rest => String c (new ++ insert_between new rest)
  end.

(** [s.replace(old, new)]: every occurrence is replaced; an empty [old]
    matches before each character and at the end. *)
Definition replace (s old new : string) : string :=
  match old with
  | EmptyString => new ++ insert_between new s
  | String _ _ => replace_from old new 0 s
  end.

(** [s.split(sep)] for a one-character separator. *)
Fixpoint split (sep : ascii) (s : string) : list string :=
  match s with
  | EmptyString => [EmptyString]
  | String c rest =>
      if Ascii.eqb c sep then EmptyString :: split sep rest
      else match split sep rest with
           | first :: others => String c first :: others
           | [] => [String c EmptyString]
           end
  end.

(** [sep.join(parts)] *)
Definition join (sep : string) (parts : list string) : string :=
  String.concat sep parts.

(** [s.rfind(c)] for a character; [None] stands for -1. *)
Fixpoint rfind_from (c : ascii) (i : nat) (s : string) : option nat :=
  match s with
  | EmptyString => None
  | String d rest =>
      match rfind_from c (S i) rest with
      | Some j => Some j
      | None => if Ascii.eqb d c then Some i else None
      end
  end.

Definition rfind (c : ascii) (s : string) : option nat := rfind_from c 0 s.

(** [c in s] for a character. *)
Fixpoint contains (c : ascii) (s : string) : bool :=
  match s with
  | EmptyString => false
  | String d rest => Ascii.eqb d c || contains c rest
  end.

Fixpoint has_other_char (c : ascii) (s : string) : bool :=
  match s with
  | EmptyString => false
  | String d rest => negb (Ascii.eqb d c) || has_other_char c rest
  end.

(** [os.path.splitext(p)]: the extension starts at the last dot of the
    last path component; leading dots of that component do not count. *)
Definition splitext (p : string) : string * string :=
  let filename_index :=
    match rfind "/" p with Some i => S i | None => 0 end in
  match rfind "." p with
  | Some dot_index =>
      if Nat.leb filename_index dot_index
         && has_other_char "." (substring filename_index (dot_index - filename_index) p)
      then (substring 0 dot_index p,
            substring dot_index (String.length p - dot_index) p)
      else (p, EmptyString)
  | None => (p, EmptyString)
  end.

(** [os.path.join(top, name)] for a relative [name]. *)
Definition path_join (top name : string) : string :=
  if endswith top "/" then top ++ name else top ++ "/" ++ name.

(** A directory: its name, its files and its sub-directories. *)
#[warnings="-register-all"] Inductive fstree : Type :=
  | Dir (name : string) (files : list string) (subdirs : list fstree).

Definition dir_name (t : fstree) : string :=
  match t with Dir name _ _ => name end.

(** [os.walk(top)] on the directory [t] found at the path [top]: one
    triple (dirpath, dirnames, filenames) per directory, a directory
    before its sub-directories. *)
Fixpoint walk (top : string) (t : fstree)
  : list (string * list string * list string) :=
  match t with
  | Dir _ files subdirs =>
      (top, map dir_name subdirs, files)
      :: flat_map (fun d => walk (path_join top (dir_name d)) d) subdirs
  end.

(** No occurrence of [old] starts inside [s] when [rest] follows it. *)
Fixpoint starts_nowhere (old s rest : string) : bool :=
  match s with
  | EmptyString => true
  | String c s' =>
      negb (String.prefix old (String c s' ++ rest)) && starts_nowhere old s' rest
  end.

End PyStr.

(** ** plugins/train/_config.py *)

Module TrainConfig.
Import Py PyStr.

(** Python type objects passed as [datatype]. *)
Inductive pytype : Type := Tbool | Tint | Tfloat | Tstr | Tlist | Tdict.

(** The keyword arguments of [add_item] besides [section] and [title];
    an optional argument that is not passed is [None]. *)
Record config_item : Type := {
  datatype : pytype;
  default : pyval;
  info : string;
  min_max : option (Q * Q);
  rounding : option Z;
  fixed : option bool;
  choices : option (list string)
}.

(** A section of the registry: its help text and its options in the
    order of their registration. *)
Record section : Type := {
  helptext : string;
  options : list (string * config_item)
}.

(** The registry ([FaceswapConfig.defaults]): sections in the order of
    their registration. *)
Definition registry : Type := list (string * section).

(** Methods of the configuration object run on the registry, which they
    change in place: what was registered before an exception stays. *)
Definition M (A : Type) : Type := registry -> outcome A * registry.

#[global] Instance M_ret : MRet M := fun A a r => (Ok a, r).
#[global] Instance M_bind : MBind M :=
  fun A B f m r =>
    match m r with
    | (Ok a, r') => f a r'
    | (Raise e, r') => (Raise e, r')
    end.

Definition raise {A : Type} (e : exn) : M A := fun r => (Raise e, r).

(** A [for] loop whose body may raise. *)
Fixpoint for_each {A : Type} (l : list A) (body : A -> M unit) : M unit :=
  match l with
  | [] => mret tt
  | x :: rest => _ ← body x; for_each rest body
  end.

Fixpoint assoc {V : Type} (k : string) (l : list (string * V)) : option V :=
  match l with
  | [] => None
  | (k', v) :: rest => if String.eqb k k' then Some v else assoc k rest
  end.

Fixpoint assoc_set {V : Type} (k : string) (v : V) (l : list (string * V))
  : list (string * V) :=
  match l with
  | [] => []
  | (k', v') :: rest =>
      if String.eqb k k' then (k', v) :: rest else (k', v') :: assoc_set k v rest
  end.

Definition supported (t : pytype) : bool :=
  match t with Tbool | Tint | Tfloat | Tstr => true | Tlist | Tdict => false end.

(** Modelled from the spec: [FaceswapConfig.add_section] of [lib/config.py],
    which is not among the sources.  It fails if the title already exists
    in the registry. *)
Definition add_section (title info : string) : M unit :=
  fun r =>
    match assoc title r with
    | Some _ => (Raise ValueError, r)
    | None => (Ok tt, (r ++ [(title, {| helptext := info; options := [] |})])%list)
    end.

(** Modelled from the spec: [FaceswapConfig.add_item] of [lib/config.py],
    which is not among the sources.  It fails if the section is unknown,
    if the title already exists in that section, or if the datatype is
    unsupported. *)
Definition add_item (sect title : string) (item : config_item) : M unit :=
  fun r =>
    match assoc sect r with
    | None => (Raise ValueError, r)
    | Some s =>
        match assoc title (options s) with
        | Some _ => (Raise ValueError, r)
        | None =>
            if negb (supported (datatype item)) then (Raise ValueError, r)
            else (Ok tt,
                  assoc_set sect
                    {| helptext := helptext s;
                       options := (options s ++ [(title, item)])%list |} r)
        end
    end.

Definition ADDITIONAL_INFO : string :=
  nl ++
  "NB: Unless specifically stated, values changed here will only take effect when creating a new model.".

Definition info_icnr_init : string :=
  nl ++ "Use ICNR to tile the default initializer in a repeating pattern. " ++ nl ++
  "This strategy is designed for pairing with sub-pixel / pixel shuffler " ++ nl ++
  "to reduce the 'checkerboard effect' in image reconstruction. " ++ nl ++
  "https://arxiv.org/ftp/arxiv/papers/1707/1707.02937.pdf " ++ nl.

Definition info_conv_aware_init : string :=
  "Use Convolution Aware Initialization for convolutional layers. " ++ nl ++
  "This can help eradicate the vanishing and exploding gradient problem " ++ nl ++
  "as well as lead to higher accuracy, lower loss and faster convergence. " ++ nl ++
  "NB This can use more VRAM when creating a new model so you may want to " ++ nl ++
  "lower the batch size for the first run. The batch size can be raised " ++ nl ++
  "again when reloading the model. " ++ nl ++
  "NB: Building the model will likely take several minutes as the calculations " ++ nl ++
  "for this initialization technique are expensive. " ++ nl.

Definition info_subpixel_upscaling : string :=
  nl ++ "Use subpixel upscaling rather than pixel shuffler. These techniques " ++ nl ++
  "are both designed to produce better resolving upscaling than other " ++ nl ++
  "methods. Each perform the same operations, but using different TF opts." ++ nl ++
  "https://arxiv.org/pdf/1609.05158.pdf " ++ nl.

Definition info_reflect_padding : string :=
  nl ++ "Use reflection padding rather than zero padding with convolutions. " ++ nl ++
  "Each convolution must pad the image boundaries to maintain the proper " ++ nl ++
  "sizing. More complex padding schemes can reduce artifacts at the " ++ nl ++
  "border of the image." ++ nl ++
  "http://www-cs.engr.ccny.cuny.edu/~wolberg/cs470/hw/hw2_pad.txt " ++ nl.

Definition info_penalized_mask_loss : string :=
  nl ++ "Image loss function is weighted by mask presence. For areas of " ++ nl ++
  "the image without the facial mask, reconstuction errors will be " ++ nl ++
  "ignored while the masked face area is prioritized. May increase " ++ nl ++
  "overall quality by focusing attention on the core face area." ++ nl.

Definition info_image_loss_function : string :=
  nl ++ "Mean_Absolute_Error ---" ++ nl ++
  "MAE will guide reconstructions of each pixel towards its median " ++ nl ++
  "value in the training dataset. Robust to outliers but as a median, " ++ nl ++
  "it can potentially ignore some infrequent image types in the dataset. " ++ nl ++ nl ++
  "Mean_Squared_Error ---" ++ nl ++
  "MSE will guide reconstructions of each pixel towards its average " ++ nl ++
  "value in the training dataset. As an avg, it will be suspectible to " ++ nl ++
  "outliers and typically produces slightly blurrier results. " ++ nl ++ nl ++ "LogCosh ---" ++
  nl ++ "log(cosh(x)) acts similiar to MSE for small errors and to MAE for large " ++ nl ++
  "errors. Like MSE, it is very stable and prevents overshoots when errors " ++ nl ++
  "are near zero. Like MAE, it is robust to outliers. " ++ nl ++ nl ++ "Smooth_L1 ---" ++ nl ++
  "Modification of the MAE loss to correct two of its disadvantages. " ++ nl ++
  "This loss has improved stability and better guidance for small errors. " ++ nl ++ nl ++
  "L_inf_norm ---" ++ nl ++
  "The L_inf norm will reduce the largest individual pixel error in an image. " ++ nl ++
  "As each largest error is minimized sequentially, the overall error is " ++ nl ++
  "improved. This loss will be extremely focused on outliers. " ++ nl ++ nl ++
  "SSIM - Structural Similarity Index Metric ---" ++ nl ++
  "SSIM is a perception-based loss that considers changes in texture, " ++ nl ++
  "luminance, contrast, and local spatial statistics of an image. " ++ nl ++
  "Potentially better textural, and realistic looking images. " ++ nl ++ nl ++
  "GMSD - Gradient Magnitude Similarity Deviation ---" ++ nl ++
  "GMSD seeks to match the differences between pixel color changes " ++ nl ++
  "when moving from pixel to pixel in an image. Corresponding pixels in " ++ nl ++
  "two images will have a difference with their neighboring pixels. " ++ nl ++
  "The global standard deviation of the pixel to pixel differences for " ++ nl ++
  "each image is calculated and the differnece in this metric is minimized. " ++ nl ++ nl ++
  "Pixel_Gradient_Difference ---" ++ nl ++
  "Instead of minimizing the difference between the absolute value of " ++ nl ++
  "each pixel in two reference images, compute the pixel to pixel " ++ nl ++
  "spatial difference in each image and then minimize that difference " ++ nl ++
  "between two images. Allows for large color shifts,but maintains the " ++ nl ++
  "structure of the image." ++ nl.

Definition info_mask_type : string :=
  "The mask to be used for training:" ++ nl ++ tab ++ " none: Doesn't use any mask." ++ nl ++
  tab ++ " components: An improved face hull mask using a facehull of 8 facial parts" ++ nl ++
  tab ++ " dfl_full: An improved face hull mask using a facehull of 3 facial parts" ++ nl ++
  tab ++
  " extended: Based on components mask. Extends the eyebrow points to further up the forehead. May perform badly on difficult angles." ++
  nl ++ tab ++ " facehull: Face cutout based on landmarks".

Definition info_learning_rate : string :=
  "Learning rate - how fast your network will learn (how large are " ++ nl ++
  "the modifications to the model weights after one batch of training)." ++ nl ++
  "Values that are too large might result in model crashes and the " ++ nl ++
  "inability of the model to find the best solution." ++ nl ++
  "Values that are too small might be unable to escape from dead-ends " ++ nl ++
  "and find the best global minimum.".

Definition info_coverage : string :=
  "How much of the extracted image to train on. Generally the model is optimized" ++ nl ++
  "to the default value. Sensible values to use are:" ++ nl ++ tab ++
  "62.5%% spans from eyebrow to eyebrow." ++ nl ++ tab ++
  "75.0%% spans from temple to temple." ++ nl ++ tab ++ "87.5%% spans from ear to ear." ++
  nl ++ tab ++ "100.0%% is a mugshot.".


(** An item given with [datatype], [default] and [info] only. *)
Definition plain_item (t : pytype) (d : pyval) (i : string) : config_item :=
  {| datatype := t; default := d; info := i; min_max := None;
     rounding := None; fixed := None; choices := None |}.

(** A defaults module: [_HELPTEXT] and [_DEFAULTS], each of which may be
    missing.  [_DEFAULTS] is a dict, its items are listed in its order. *)
Record defaults_module : Type := {
  mod_HELPTEXT : option string;
  mod_DEFAULTS : option (list (string * config_item))
}.

(** What the methods read from outside the registry. *)
Record environment : Type := {
  (** the result of [lib.model.masks.get_available_masks()] *)
  get_available_masks : list string;
  (** [lib.utils.full_path_split], which is not among the sources *)
  full_path_split : string -> list string;
  (** the modules [import_module] finds, by dotted name *)
  modules : gmap string defaults_module;
  (** [os.path.dirname(__file__)] and the directory found there *)
  current_dir : string;
  tree : fstree;
  (** [os.path.dirname(os.path.realpath(sys.argv[0]))] *)
  base_path : string
}.

Section Config.
Variable env : environment.

(** [Config.set_globals] *)
Definition set_globals : M unit :=
  let sect := "global" in
  _ ← add_section sect ("Options that apply to all models" ++ ADDITIONAL_INFO);
  _ ← add_item sect "icnr_init" (plain_item Tbool (VBool false) info_icnr_init);
  _ ← add_item sect "conv_aware_init"
        (plain_item Tbool (VBool false) info_conv_aware_init);
  _ ← add_item sect "subpixel_upscaling"
        (plain_item Tbool (VBool false) info_subpixel_upscaling);
  _ ← add_item sect "reflect_padding"
        (plain_item Tbool (VBool false) info_reflect_padding);
  _ ← add_item sect "penalized_mask_loss"
        (plain_item Tbool (VBool true) info_penalized_mask_loss);
  _ ← add_item sect "image_loss_function"
        {| datatype := Tstr; default := VStr "Mean_Absolute_Error";
           info := info_image_loss_function;
           min_max := None; rounding := None; fixed := None;
           choices := Some ["Mean_Absolute_Error"; "Mean_Squared_Error"; "LogCosh";
                            "Smooth_L1"; "L_inf_norm"; "SSIM"; "GMSD";
                            "Pixel_Gradient_Difference"] |};
  _ ← add_item sect "mask_type"
        {| datatype := Tstr; default := VStr "none";
           info := info_mask_type;
           min_max := None; rounding := None; fixed := None;
           choices := Some (get_available_masks env) |};
  _ ← add_item sect "learning_rate"
        {| datatype := Tfloat; default := VFloat 5e-5;
           info := info_learning_rate;
           min_max := Some (1e-6, 1e-4)%Q; rounding := Some 6%Z;
           fixed := Some false; choices := None |};
  add_item sect "coverage"
        {| datatype := Tfloat; default := VFloat 68.75;
           info := info_coverage;
           min_max := Some (62.5, 100.0)%Q; rounding := None;
           fixed := Some true; choices := None |}.

(** [import_module(name)] *)
Definition import_module (name : string) : M defaults_module :=
  match modules env !! name with
  | Some m => mret m
  | None => raise ImportError
  end.

(** Reading an attribute of a module that may lack it. *)
Definition getattr {A : Type} (field : option A) : M A :=
  match field with
  | Some a => mret a
  | None => raise AttributeError
  end.

(** [Config.load_module] *)
Definition load_module (filename module_path plugin_type : string) : M unit :=
  let module := fst (splitext filename) in
  let sect := join "." [plugin_type; replace module "_defaults" ""] in
  mod_ ← import_module (module_path ++ "." ++ module);
  helptext ← getattr (mod_HELPTEXT mod_);
  let helptext :=
    helptext ++ (if endswith module_path "model" then ADDITIONAL_INFO else "") in
  _ ← add_section sect helptext;
  defaults ← getattr (mod_DEFAULTS mod_);
  for_each defaults (fun kv => add_item sect (fst kv) (snd kv)).

(** The body of the loop of [Config.set_defaults] over [os.walk]. *)
Definition visit_directory (entry : string * list string * list string) : M unit :=
  let '(dirpath, _, filenames) := entry in
  let default_files := filter (fun fname => endswith fname "_defaults.py") filenames in
  match default_files with
  | [] => mret tt
  | _ :: _ =>
      let import_path :=
        join "." (tail (full_path_split env (replace dirpath (base_path env) ""))) in
      let plugin_type := List.last (split "." import_path) "" in
      for_each default_files
        (fun filename => load_module filename import_path plugin_type)
  end.

(** [Config.set_defaults] *)
Definition set_defaults : M unit :=
  _ ← set_globals;
  for_each (walk (current_dir env) (tree env)) visit_directory.

(** *** What discovery meets *)

Definition defaults_in (filenames : list string) : list string :=
  filter (fun fname => endswith fname "_defaults.py") filenames.

Definition import_path_of (dirpath : string) : string :=
  join "." (tail (full_path_split env (replace dirpath (base_path env) ""))).

Definition plugin_type_of (dirpath : string) : string :=
  List.last (split "." (import_path_of dirpath)) "".

(** The calls of [load_module] that [set_defaults] makes, in order:
    (filename, module_path, plugin_type). *)
Definition discovered : list (string * string * string) :=
  flat_map (fun entry : string * list string * list string =>
      let '(dirpath, _, filenames) := entry in
      map (fun filename => (filename, import_path_of dirpath, plugin_type_of dirpath))
          (defaults_in filenames))
    (walk (current_dir env) (tree env)).

Definition load (call : string * string * string) : M unit :=
  let '(filename, module_path, plugin_type) := call in
  load_module filename module_path plugin_type.

(** The name of the module a call imports. *)
Definition module_name (call : string * string * string) : string :=
  let '(filename, module_path, _) := call in
  module_path ++ "." ++ fst (splitext filename).

(** The title "<plugin_type>.<module_name>" of the section of a call. *)
Definition section_title (call : string * string * string) : string :=
  let '(filename, _, plugin_type) := call in
  plugin_type ++ "." ++ replace (fst (splitext filename)) "_defaults" "".

(** The help text of the section of a call, for the help text [h] of its
    module: sections of a module path that ends in "model" get the
    addendum. *)
Definition section_info (call : string * string * string) (h : string) : string :=
  let '(_, module_path, _) := call in
  h ++ (if endswith module_path "model" then ADDITIONAL_INFO else "").

(** A defaults module that loads, has both artefacts, and whose option
    definitions [add_item] accepts; the keys of [_DEFAULTS], a dict, are
    different from each other. *)
Definition well_formed (call : string * string * string) : Prop :=
  exists m h items,
    modules env !! module_name call = Some m
    /\ mod_HELPTEXT m = Some h
    /\ mod_DEFAULTS m = Some items
    /\ NoDup (map fst items)
    /\ Forall (fun kv => supported (datatype (snd kv)) = true) items.

(** The section [s] is the one of the call: its title, the help text of
    its module, the options of its module. *)
Definition section_for (call : string * string * string) (s : string * section) : Prop :=
  exists m h items,
    modules env !! module_name call = Some m
    /\ mod_HELPTEXT m = Some h
    /\ mod_DEFAULTS m = Some items
    /\ s = (section_title call,
            {| helptext := section_info call h; options := items |}).

(** A defaults module that does not load, or lacks an artefact. *)
Definition malformed (call : string * string * string) : Prop :=
  match modules env !! module_name call with
  | None => True
  | Some m => mod_HELPTEXT m = None \/ mod_DEFAULTS m = None
  end.

End Config.

(** The sections other than [title] are left alone by [m], and [title]
    is not removed. *)
Definition touches_only {A : Type} (title : string) (m : M A) : Prop :=
  forall r,
    (forall t, t <> title -> assoc t (m r).2 = assoc t r)
    /\ (assoc title r <> None -> assoc title (m r).2 <> None).

(** The number of defaults files in a directory tree. *)
Fixpoint count_defaults_files (t : fstree) : nat :=
  match t with
  | Dir _ files subdirs =>
      length (defaults_in files) + list_sum (map count_defaults_files subdirs)
  end.

(** What is kept of an option, to compare it with the documentation. *)
Definition summary (kv : string * config_item)
  : string * pytype * pyval * option (Q * Q) * option Z * option bool
    * option (list string) :=
  (fst kv, datatype (snd kv), default (snd kv), min_max (snd kv),
   rounding (snd kv), fixed (snd kv), choices (snd kv)).

(** *** Sample plugin trees *)

(** A path split at its separators, the root first for an absolute path. *)
Definition posix_full_path_split (path : string) : list string :=
  let parts := filter (fun s => negb (String.eqb s "")) (split "/" path) in
  if String.prefix "/" path then "/" :: parts
  else match parts with [] => [""] | _ :: _ => parts end.

Definition lowmem_item : config_item :=
  plain_item Tbool (VBool false) "Lower memory mode.".

Definition good_module : defaults_module :=
  {| mod_HELPTEXT := Some "A model."; mod_DEFAULTS := Some [("lowmem", lowmem_item)] |}.

Definition trainer_module : defaults_module :=
  {| mod_HELPTEXT := Some "A trainer."; mod_DEFAULTS := Some [] |}.

(** A module without [_DEFAULTS]. *)
Definition module_without_defaults : defaults_module :=
  {| mod_HELPTEXT := Some "Unfinished."; mod_DEFAULTS := None |}.

Definition sample_env (ms : gmap string defaults_module) (t : fstree) : environment :=
  {| get_available_masks := ["none"; "components"; "dfl_full"; "extended"; "facehull"];
     full_path_split := posix_full_path_split;
     modules := ms;
     current_dir := "/app/plugins/train";
     tree := t;
     base_path := "/app" |}.

(** Two well-formed defaults files, a model and a trainer. *)
Definition two_plugins : environment :=
  sample_env
    (<["plugins.train.model.dfl_h128_defaults" := good_module]>
       (<["plugins.train.trainer.original_defaults" := trainer_module]> ∅))
    (Dir "train" ["_config.py"]
       [Dir "model" ["dfl_h128_defaults.py"; "dfl_h128.py"] [];
        Dir "trainer" ["original_defaults.py"] []]).

(** Two well-formed defaults files with one section title. *)
Definition clashing_plugins : environment :=
  sample_env
    (<["plugins.train.model.a_defaults" := good_module]>
       (<["plugins.train.model.a_defaults_defaults" := good_module]> ∅))
    (Dir "train" ["_config.py"]
       [Dir "model" ["a_defaults.py"; "a_defaults_defaults.py"] []]).

(** A well-formed defaults file followed by a malformed one. *)
Definition broken_plugins : environment :=
  sample_env
    (<["plugins.train.model.a_defaults" := good_module]>
       (<["plugins.train.model.b_defaults" := module_without_defaults]> ∅))
    (Dir "train" ["_config.py"]
       [Dir "model" ["a_defaults.py"; "b_defaults.py"] []]).

(** A plugin tree without defaults files. *)
Definition no_plugins : environment :=
  sample_env ∅
    (Dir "train" ["_config.py"; "__init__.py"]
       [Dir "model" ["dfl_h128.py"; "original.py"] [Dir "nested" [] []]]).

(** *** Options that agree with themselves *)

(** The default of an option has the type that its [datatype] names. *)
Definition default_typed (item : config_item) : bool :=
  match datatype item, default item with
  | Tbool, VBool _ | Tint, VInt _ | Tfloat, VFloat _ | Tstr, VStr _ => true
  | _, _ => false
  end.

(** A numeric default lies within [min_max], if that is given. *)
Definition default_in_bounds (item : config_item) : bool :=
  match min_max item, default item with
  | Some (lo, hi), VFloat q => Qle_bool lo q && Qle_bool q hi
  | Some (lo, hi), VInt z => Qle_bool lo (inject_Z z) && Qle_bool (inject_Z z) hi
  | _, _ => true
  end.

(** A string default is one of the [choices], if those are given. *)
Definition default_in_choices (item : config_item) : bool :=
  match choices item, default item with
  | Some cs, VStr s => existsb (String.eqb s) cs
  | _, _ => true
  end.

Definition default_valid (item : config_item) : bool :=
  default_typed item && default_in_bounds item && default_in_choices item.

End TrainConfig.

(** ** plugins/train/model/dfl_h128.py

    The file holds an unresolved merge: where the two sides differ in
    what they build, both are given ([decoder_HEAD] for the side marked
    HEAD, [decoder] for the other side).  [initialize] and
    [set_training_data] exist on the HEAD side only. *)

Module DflH128.
Import Py.

(** The shape of a tensor, without the batch axis. *)
Definition shape : Type := list Z.

(** The identity of a Keras model object. *)
Definition obj_id : Type := nat.

(** The layers the model is made of: the blocks [conv] and [upscale]
    and the Keras layers. *)
Inductive layer : Type :=
  | Conv (filters : Z)
  | Upscale (filters : Z)
  | Dense (units : Z)
  | Flatten
  | Reshape (target_shape : shape)
  | Conv2D (filters kernel_size : Z) (padding activation : string).

(** What produced a tensor: a layer, or output number [output] of the
    model object [net] applied as a whole. *)
Inductive node : Type :=
  | Layer (l : layer)
  | SubNetwork (net : obj_id) (output : nat).

(** A symbolic tensor: its shape and the nodes it went through since the
    input placeholder, first node first. *)
Record tensor : Type := {
  t_shape : shape;
  t_history : list node
}.

(** [Input(shape=s)] *)
Definition Input (s : shape) : tensor := {| t_shape := s; t_history := [] |}.

Definition product (s : shape) : Z := fold_right Z.mul 1%Z s.

Definition same_shape (s t : shape) : bool :=
  bool_decide (s = t).

(** Modelled from the spec: the block [conv] of [lib/model/nn_blocks.py],
    which is not among the sources, is one downsampling stage: the two
    spatial axes are halved and the channels become [filters]. *)
Definition conv_shape (filters h w : Z) : shape :=
  [((h + 1) / 2)%Z; ((w + 1) / 2)%Z; filters].

(** Modelled from the spec: the block [upscale] of
    [lib/model/nn_blocks.py], which is not among the sources, is one
    upsampling stage: the two spatial axes are doubled and the channels
    become [filters]. *)
Definition upscale_shape (filters h w : Z) : shape :=
  [(2 * h)%Z; (2 * w)%Z; filters].

(** Shape inference, done while the graph is built. *)
Definition output_shape (l : layer) (s : shape) : outcome shape :=
  match l, s with
  | Conv f, [h; w; _] => Ok (conv_shape f h w)
  | Upscale f, [h; w; _] => Ok (upscale_shape f h w)
  | Dense u, _ :: _ => Ok (removelast s ++ [u])%list
  | Flatten, _ => Ok [product s]
  | Reshape t, _ =>
      if Z.eqb (product t) (product s) then Ok t else Raise ValueError
  | Conv2D f k padding _, [h; w; _] =>
      if String.eqb padding "same" then Ok [h; w; f]
      else Ok [(h - k + 1)%Z; (w - k + 1)%Z; f]
  | _, _ => Raise ValueError
  end.

(** [layer(x)] *)
Definition apply (l : layer) (x : tensor) : outcome tensor :=
  s ← output_shape l (t_shape x);
  Ok {| t_shape := s; t_history := (t_history x ++ [Layer l])%list |}.

(** A Keras model: its input placeholders and its output tensors. *)
Record keras_model : Type := KerasModel {
  inputs : list tensor;
  outputs : list tensor
}.

(** The attributes of the model instance that the methods read. *)
Record model : Type := {
  input_shape : shape;
  encoder_dim : Z;
  config : gmap string pyval
}.

(** [d[key]] *)
Definition getitem {V : Type} (d : gmap string V) (key : string) : outcome V :=
  match d !! key with
  | Some v => Ok v
  | None => Raise KeyError
  end.

(** [d.get(key, default)] *)
Definition dict_get {V : Type} (d : gmap string V) (key : string) (default : V) : V :=
  match d !! key with
  | Some v => v
  | None => default
  end.

(** [Model.__init__]: the keyword arguments [input_shape] and
    [encoder_dim] that it passes on to the parent class. *)
Definition init_kwargs (config : gmap string pyval) : outcome (shape * Z) :=
  lowmem ← getitem config "lowmem";
  Ok ([128; 128; 3]%Z, if truthy lowmem then 256%Z else 512%Z).

(** Modelled from the spec: the [__init__] of the parent class
    ([original.py], not among the sources) keeps the two keyword
    arguments as the attributes of the instance that [encoder] and
    [decoder] read. *)
Definition init (config : gmap string pyval) : outcome model :=
  kwargs ← init_kwargs config;
  Ok {| input_shape := fst kwargs; encoder_dim := snd kwargs; config := config |}.

(** [Model.encoder] (the two sides of the merge build the same layers) *)
Definition encoder (self : model) : outcome keras_model :=
  let input_ := Input (input_shape self) in
  let var_x := input_ in
  var_x ← apply (Conv 128) var_x;
  var_x ← apply (Conv 256) var_x;
  var_x ← apply (Conv 512) var_x;
  var_x ← apply (Conv 1024) var_x;
  flat ← apply Flatten var_x;
  var_x ← apply (Dense (encoder_dim self)) flat;
  var_x ← apply (Dense (8 * 8 * encoder_dim self)) var_x;
  var_x ← apply (Reshape [8; 8; encoder_dim self]%Z) var_x;
  var_x ← apply (Upscale (encoder_dim self)) var_x;
  Ok (KerasModel [input_] [var_x]).

(** [Model.decoder], the side of the merge that is not HEAD: the mask
    output is appended if the option [mask_type] is set. *)
Definition decoder (self : model) : outcome keras_model :=
  let input_ := Input [16; 16; encoder_dim self]%Z in
  let var := input_ in
  var ← apply (Upscale (encoder_dim self)) var;
  var ← apply (Upscale (encoder_dim self / 2)) var;
  var ← apply (Upscale (encoder_dim self / 4)) var;
  var_x ← apply (Conv2D 3 5 "same" "sigmoid") var;
  let outputs := [var_x] in
  if truthy (dict_get (config self) "mask_type" VNone)
  then
    var_y ← apply (Conv2D 1 5 "same" "sigmoid") var;
    Ok (KerasModel [input_] (outputs ++ [var_y])%list)
  else Ok (KerasModel [input_] outputs).

(** [Model.decoder], the side of the merge marked HEAD: face and mask
    outputs, whatever the configuration. *)
Definition decoder_HEAD (self : model) : outcome keras_model :=
  let input_ := Input [16; 16; encoder_dim self]%Z in
  let var := input_ in
  var ← apply (Upscale (encoder_dim self)) var;
  var ← apply (Upscale (encoder_dim self / 2)) var;
  var ← apply (Upscale (encoder_dim self / 4)) var;
  var_x ← apply (Conv2D 3 5 "same" "sigmoid") var;
  var_y ← apply (Conv2D 1 5 "same" "sigmoid") var;
  Ok (KerasModel [input_] [var_x; var_y]).

(** [Model.set_training_data] *)
Definition set_training_data (self : model) : outcome (gmap string pyval) :=
  mask_type ← getitem (config self) "mask_type";
  Ok (<["preview_images" := VInt 10]> (<["mask_type" := mask_type]> ∅)).

(** *** The instance while its graphs are composed *)

(** The model instance together with the Keras model objects that exist:
    [networks] and [predictors] hold references into [heap]
    ([self.networks[name].network] is the reference kept under [name]). *)
Record model_state : Type := {
  self_model : model;
  networks : gmap string obj_id;
  predictors : gmap string obj_id;
  masks : list tensor;
  heap : gmap obj_id keras_model
}.

Definition St (A : Type) : Type := model_state -> outcome A * model_state.

#[global] Instance St_ret : MRet St := fun A a st => (Ok a, st).
#[global] Instance St_bind : MBind St :=
  fun A B f m st =>
    match m st with
    | (Ok a, st') => f a st'
    | (Raise e, st') => (Raise e, st')
    end.

Definition lift {A : Type} (o : outcome A) : St A := fun st => (o, st).

(** [self.networks[name].network] *)
Definition network (name : string) : St obj_id :=
  fun st => (getitem (networks st) name, st).

(** A new model object. *)
Definition new_model (m : keras_model) : St obj_id :=
  fun st =>
    let id := fresh (dom (heap st)) in
    (Ok id,
     {| self_model := self_model st; networks := networks st;
        predictors := predictors st; masks := masks st;
        heap := <[id := m]> (heap st) |}).

(** [net(xs)]: the model object [net] applied to the tensors [xs].  The
    result tensors refer to [net] itself; nothing is copied. *)
Definition call (net : obj_id) (xs : list tensor) : St (list tensor) :=
  fun st =>
    (match heap st !! net, xs with
     | Some m, [x] =>
         match inputs m with
         | [i] =>
             if same_shape (t_shape i) (t_shape x)
             then Ok (imap (fun k o =>
                        {| t_shape := t_shape o;
                           t_history := (t_history x ++ [SubNetwork net k])%list |})
                        (outputs m))
             else Raise ValueError
         | _ => Raise ValueError
         end
     | _, _ => Raise ValueError
     end, st).

(** Modelled from the spec: [add_predictors] of the parent class, which is
    not among the sources, keeps the two composed graphs as the
    predictors of the identities A and B. *)
Definition add_predictors (ae_a ae_b : obj_id) : St unit :=
  fun st =>
    (Ok tt,
     {| self_model := self_model st; networks := networks st;
        predictors := <["b" := ae_b]> (<["a" := ae_a]> (predictors st));
        masks := masks st; heap := heap st |}).

Definition set_masks (ms : list tensor) : St unit :=
  fun st =>
    (Ok tt,
     {| self_model := self_model st; networks := networks st;
        predictors := predictors st; masks := ms; heap := heap st |}).

(** [Model.initialize] (HEAD side of the merge) *)
Definition initialize : St unit :=
  fun st =>
    let self := self_model st in
    let mask_shape := (take 2 (input_shape self) ++ [1%Z])%list in
    let inp_a := Input (input_shape self) in
    let mask_a := Input mask_shape in
    let inp_b := Input (input_shape self) in
    let mask_b := Input mask_shape in
    (decoder_a ← network "decoder_a";
     encoder_a ← network "encoder";
     latent_a ← call encoder_a [inp_a];
     out_a ← call decoder_a latent_a;
     ae_a ← new_model (KerasModel [inp_a; mask_a] out_a);
     decoder_b ← network "decoder_b";
     encoder_b ← network "encoder";
     latent_b ← call encoder_b [inp_b];
     out_b ← call decoder_b latent_b;
     ae_b ← new_model (KerasModel [inp_b; mask_b] out_b);
     _ ← add_predictors ae_a ae_b;
     set_masks [mask_a; mask_b]) st.

(** Modelled from the spec: the step of the parent class, which is not
    among the sources, that builds one decoder per identity and one
    encoder and keeps them in [networks]. *)
Definition add_networks (build_decoder : model -> outcome keras_model) : St unit :=
  fun st =>
    let self := self_model st in
    let register (name : string) (id : obj_id) : St unit :=
      fun st =>
        (Ok tt,
         {| self_model := self_model st;
            networks := <[name := id]> (networks st);
            predictors := predictors st; masks := masks st; heap := heap st |}) in
    (dec_a ← lift (build_decoder self);
     id_a ← new_model dec_a;
     _ ← register "decoder_a" id_a;
     dec_b ← lift (build_decoder self);
     id_b ← new_model dec_b;
     _ ← register "decoder_b" id_b;
     enc ← lift (encoder self);
     id_e ← new_model enc;
     register "encoder" id_e) st.

(** The state of an instance before any network exists. *)
Definition fresh_state (self : model) : model_state :=
  {| self_model := self; networks := ∅; predictors := ∅; masks := []; heap := ∅ |}.

(** *** Reading a graph *)

Definition layers_of (t : tensor) : list layer :=
  omap (fun n => match n with Layer l => Some l | SubNetwork _ _ => None end)
       (t_history t).

(** The model objects a tensor went through, first one first. *)
Definition subnetworks_of (t : tensor) : list obj_id :=
  omap (fun n => match n with SubNetwork id _ => Some id | Layer _ => None end)
       (t_history t).

(** The trunk of a model: the layers its first output went through. *)
Definition trunk (m : keras_model) : list layer :=
  match outputs m with
  | t :: _ => layers_of t
  | [] => []
  end.

(** The channel counts of the downsampling stages, in order. *)
Definition downsampling_schedule (m : keras_model) : list Z :=
  omap (fun l => match l with Conv f => Some f | _ => None end) (trunk m).

(** The channel counts of the upsampling stages, in order. *)
Definition upsampling_schedule (m : keras_model) : list Z :=
  omap (fun l => match l with Upscale f => Some f | _ => None end) (trunk m).

(** The decoder's upsampling stages mirror the encoder's downsampling
    stages: as many stages, the channel counts in reverse order. *)
Definition mirrors (enc dec : keras_model) : Prop :=
  upsampling_schedule dec = rev (downsampling_schedule enc).

(** All layers of a model, over all its outputs. *)
Definition all_layers (m : keras_model) : list layer :=
  flat_map layers_of (outputs m).

Definition is_mask_layer (l : layer) : bool :=
  match l with
  | Conv2D f _ _ _ => Z.eqb f 1
  | _ => false
  end.

(** The encoder a composed graph goes through: the first model object on
    the way from the input to each output. *)
Definition encoder_refs (p : keras_model) : list (option obj_id) :=
  map (fun t => head (subnetworks_of t)) (outputs p).

(** The encoders of the two predictors: for each output of the graphs
    kept as predictors A and B, the first model object it went through. *)
Definition predictor_encoders (st : model_state) : list (option obj_id) :=
  flat_map (fun name =>
      match predictors st !! name with
      | Some p =>
          match heap st !! p with
          | Some g => encoder_refs g
          | None => []
          end
      | None => []
      end) ["a"; "b"].

(** The networks the composition needs are there and fit each other:
    [e], [da] and [db] are the encoder and the two decoders kept in
    [networks], the encoder takes the input shape of the model, and the
    decoders take what the encoder gives. *)
Definition composable (st : model_state) (e da db : obj_id) : Prop :=
  networks st !! "encoder" = Some e
  /\ networks st !! "decoder_a" = Some da
  /\ networks st !! "decoder_b" = Some db
  /\ exists enc dec_a dec_b x latent in_a in_b,
       heap st !! e = Some enc /\ heap st !! da = Some dec_a
       /\ heap st !! db = Some dec_b
       /\ inputs enc = [x] /\ t_shape x = input_shape (self_model st)
       /\ outputs enc = [latent]
       /\ inputs dec_a = [in_a] /\ t_shape in_a = t_shape latent
       /\ inputs dec_b = [in_b] /\ t_shape in_b = t_shape latent.

(** *** Sample configurations *)

Definition default_config : gmap string pyval :=
  <["lowmem" := VBool false]> (<["mask_type" := VNone]> ∅).

Definition lowmem_config : gmap string pyval :=
  <["lowmem" := VBool true]> (<["mask_type" := VStr "components"]> ∅).

Definition default_model : model :=
  {| input_shape := [128; 128; 3]%Z; encoder_dim := 512%Z; config := default_config |}.

(** The instance once its networks are built, before [initialize]. *)
Definition built_state : model_state :=
  (add_networks decoder_HEAD (fresh_state default_model)).2.

(** The graph that [initialize] composes from the encoder object [e] and
    the decoder object [d], whose model is [dec]. *)
Definition composed_graph (self : model) (e d : obj_id) (dec : keras_model)
  : keras_model :=
  KerasModel
    [Input (input_shape self); Input (take 2 (input_shape self) ++ [1%Z])%list]
    (imap (fun k o =>
       {| t_shape := t_shape o; t_history := [SubNetwork e 0; SubNetwork d k] |})
       (outputs dec)).

(** [st'] is [st] with, at most, model objects added: the attributes of
    the instance are the same and the objects that existed are there. *)
Definition only_objects_added (st st' : model_state) : Prop :=
  self_model st' = self_model st /\ networks st' = networks st
  /\ predictors st' = predictors st /\ masks st' = masks st
  /\ forall id m, heap st !! id = Some m -> heap st' !! id = Some m.

(** Whatever [m] returns or raises, it has at most added model objects. *)
Definition adds_objects_only {A : Type} (m : St A) : Prop :=
  forall st, only_objects_added st (m st).2.

(** If [m] raises, it has at most added model objects. *)
Definition fails_cleanly {A : Type} (m : St A) : Prop :=
  forall st e st', m st = (Raise e, st') -> only_objects_added st st'.

(** A configuration without the option [mask_type]. *)
Definition bare_config : gmap string pyval := <["lowmem" := VBool true]> ∅.

Definition bare_model : model :=
  {| input_shape := [128; 128; 3]%Z; encoder_dim := 256%Z; config := bare_config |}.

(** A model for images of another size. *)
Definition small_model : model :=
  {| input_shape := [64; 96; 1]%Z; encoder_dim := 512%Z; config := default_config |}.

(** An instance whose networks lack the second decoder. *)
Definition half_built_state : model_state :=
  {| self_model := self_model built_state;
     networks := delete "decoder_b" (networks built_state);
     predictors := predictors built_state;
     masks := masks built_state;
     heap := heap built_state |}.

End DflH128.

(** * Statements *)

(** ** Colour adjustment *)

Module AvgColorFacts.
Import Py AvgColor.

Section Facts.
Context {F : Type} `{Arith F}.

Lemma nth_zip_with (f : F -> F -> F) (l1 l2 : list F) (k : nat) (d : F) :
  (k < length l1)%nat -> (k < length l2)%nat ->
  nth k (zip_with f l1 l2) d = f (nth k l1 d) (nth k l2 d).
Proof.
  revert l2 k. induction l1 as [|x l1 IH]; intros [|y l2] k H1 H2; simpl in *; try lia.
  destruct k as [|k]; [reflexivity|]. apply IH; lia.
Qed.

Lemma length_zip_with_same (f : F -> F -> F) (l1 l2 : list F) (n : nat) :
  length l1 = n -> length l2 = n -> length (zip_with f l1 l2) = n.
Proof.
  intros H1 H2. rewrite length_zip_with. lia.
Qed.

Lemma well_shaped_spec (a : ndarray3 F) :
  well_shaped a = true <->
  length (data a) = height a /\ rows_ok (width a) (channels a) (data a).
Proof.
  unfold well_shaped, rows_ok, pixels_ok.
  rewrite andb_true_iff, Nat.eqb_eq, forallb_forall, Forall_forall.
  split; intros [Hl Hr]; split; try assumption.
  - intros row Hin. apply list_elem_of_In in Hin. specialize (Hr row Hin).
    rewrite andb_true_iff, Nat.eqb_eq, forallb_forall in Hr.
    destruct Hr as [Hw Hp]. split; [assumption|].
    apply Forall_forall. intros p Hp'. apply Nat.eqb_eq, Hp.
    now apply list_elem_of_In.
  - intros row Hin. apply list_elem_of_In in Hin. destruct (Hr row Hin) as [Hw Hp].
    rewrite andb_true_iff, Nat.eqb_eq, forallb_forall. split; [assumption|].
    intros p Hp'. apply Nat.eqb_eq. rewrite Forall_forall in Hp. apply Hp.
    now apply list_elem_of_In.
Qed.

(** The vector accumulation of one row, read at channel [k]. *)
Lemma fold_row_nth (c k : nat) (row : list (list F)) (acc : list F) :
  pixels_ok c row -> length acc = c -> (k < c)%nat ->
  length (fold_left (fun acc p => zip_with add acc p) row acc) = c /\
  nth k (fold_left (fun acc p => zip_with add acc p) row acc) zero =
  fold_left (fun s p => add s (nth k p zero)) row (nth k acc zero).
Proof.
  intros Hrow. revert acc. induction Hrow as [|p row Hp Hrow IH]; intros acc Hacc Hk; simpl.
  - auto.
  - destruct (IH (zip_with add acc p)) as [Hl Hn].
    + now apply length_zip_with_same.
    + assumption.
    + split; [assumption|]. rewrite Hn. f_equal. apply nth_zip_with; lia.
Qed.

Lemma fold_rows_nth (w c k : nat) (d : list (list (list F))) (acc : list F) :
  rows_ok w c d -> length acc = c -> (k < c)%nat ->
  length (fold_left (fun acc row => fold_left (fun acc p => zip_with add acc p) row acc) d acc) = c /\
  nth k (fold_left (fun acc row => fold_left (fun acc p => zip_with add acc p) row acc) d acc) zero =
  sum_nested (fun p => nth k p zero) d (nth k acc zero).
Proof.
  intros Hd. revert acc. induction Hd as [|row d [Hw Hrow] Hd IH]; intros acc Hacc Hk; simpl.
  - auto.
  - destruct (fold_row_nth c k row acc Hrow Hacc Hk) as [Hl Hn].
    destruct (IH _ Hl Hk) as [Hl' Hn']. split; [assumption|].
    rewrite Hn'. unfold sum_nested. simpl. now rewrite Hn.
Qed.

Lemma nth_replicate_zero (c k : nat) : nth k (replicate c (zero : F)) zero = zero.
Proof.
  revert k. induction c as [|c IH]; intros [|k]; simpl; auto.
Qed.

Lemma sum_axis01_nth (w c k : nat) (d : list (list (list F))) :
  rows_ok w c d -> (k < c)%nat ->
  length (sum_axis01 c d) = c /\
  nth k (sum_axis01 c d) zero = sum_nested (fun p => nth k p zero) d zero.
Proof.
  intros Hd Hk. unfold sum_axis01.
  destruct (fold_rows_nth w c k d (replicate c zero) Hd) as [Hl Hn];
    [apply length_replicate | assumption |].
  split; [assumption|]. now rewrite Hn, nth_replicate_zero.
Qed.

Lemma length_sum_axis01 (w c : nat) (d : list (list (list F))) :
  rows_ok w c d -> length (sum_axis01 c d) = c.
Proof.
  intros Hd. unfold sum_axis01. revert Hd. generalize (length_replicate c (zero : F)).
  generalize (replicate c (zero : F)) as acc. intros acc Hacc Hd. revert acc Hacc.
  induction Hd as [|row d [Hw Hrow] Hd IH]; intros acc Hacc; simpl; [assumption|].
  apply IH. clear IH Hd Hw. revert acc Hacc.
  induction Hrow as [|p row Hp Hrow IH]; intros acc Hacc; simpl; [assumption|].
  apply IH. now apply length_zip_with_same.
Qed.

(** A fold over a list is a fold over its positions. *)
Lemma fold_left_positions {A B : Type} (f : B -> A -> B) (l : list A) (d : A) (s : B) (g : nat -> A) :
  (forall j, (j < length l)%nat -> g j = nth j l d) ->
  fold_left f l s = fold_left (fun acc j => f acc (g j)) (seq 0 (length l)) s.
Proof.
  revert s g. induction l as [|x l IH] using rev_ind; intros s g Hg; [reflexivity|].
  rewrite length_app in *. simpl in *. rewrite Nat.add_1_r, seq_S, !fold_left_app. simpl.
  rewrite <- (IH s g).
  - f_equal. rewrite Hg by lia. rewrite app_nth2 by lia. now rewrite Nat.sub_diag.
  - intros j Hj. rewrite Hg by lia. now rewrite app_nth1.
Qed.

Lemma fold_left_ext_in {A B : Type} (f g : B -> A -> B) (l : list A) (s : B) :
  (forall acc x, In x l -> f acc x = g acc x) ->
  fold_left f l s = fold_left g l s.
Proof.
  revert s. induction l as [|x l IH]; intros s Hfg; simpl; [reflexivity|].
  rewrite Hfg by (left; reflexivity). apply IH. intros acc y Hy. apply Hfg. now right.
Qed.

Lemma rows_ok_nth (w c i : nat) (d : list (list (list F))) :
  rows_ok w c d -> (i < length d)%nat ->
  length (nth i d []) = w /\ pixels_ok c (nth i d []).
Proof.
  unfold rows_ok. rewrite Forall_forall. intros Hd Hi.
  apply (Hd (nth i d [])). apply list_elem_of_In, nth_In, Hi.
Qed.

Lemma sum_nested_positions (g : list F -> F) (h w c : nat) (d : list (list (list F))) (s : F) :
  length d = h -> rows_ok w c d ->
  sum_nested g d s =
  fold_left (fun acc i =>
      fold_left (fun acc j => add acc (g (nth j (nth i d []) []))) (seq 0 w) acc)
    (seq 0 h) s.
Proof.
  intros Hh Hd. unfold sum_nested. subst h.
  rewrite (fold_left_positions _ d [] s (fun i => nth i d [])) by reflexivity.
  apply fold_left_ext_in. intros acc i Hi. apply in_seq in Hi.
  destruct (rows_ok_nth w c i d Hd) as [Hw _]; [lia|].
  rewrite (fold_left_positions _ (nth i d []) [] acc (fun j => nth j (nth i d []) []))
    by reflexivity.
  now rewrite Hw.
Qed.

(** [sum_axis01] read at one channel is the sum over the pixel positions. *)
Lemma sum_axis01_channel (a : ndarray3 F) (k : nat) :
  well_shaped a = true -> (k < channels a)%nat ->
  nth k (sum_axis01 (channels a) (data a)) zero =
  sum_hw (height a) (width a) (fun i j => px a i j k).
Proof.
  intros Hwf Hk. apply well_shaped_spec in Hwf. destruct Hwf as [Hh Hd].
  destruct (sum_axis01_nth (width a) (channels a) k (data a) Hd Hk) as [_ Hn].
  rewrite Hn. unfold sum_hw, px.
  apply (sum_nested_positions (fun p => nth k p zero) (height a) (width a) (channels a));
    assumption.
Qed.

Lemma nth_zip_with_gen {A B C : Type} (f : A -> B -> C) (l1 : list A) (l2 : list B)
    (k : nat) (d1 : A) (d2 : B) (d : C) :
  (k < length l1)%nat -> (k < length l2)%nat ->
  nth k (zip_with f l1 l2) d = f (nth k l1 d1) (nth k l2 d2).
Proof.
  revert l2 k. induction l1 as [|x l1 IH]; intros [|y l2] k H1 H2; simpl in *; try lia.
  destruct k as [|k]; [reflexivity|]. apply IH; lia.
Qed.

Lemma sum_hw_ext (h w : nat) (f g : nat -> nat -> F) :
  (forall i j, (i < h)%nat -> (j < w)%nat -> f i j = g i j) ->
  sum_hw h w f = sum_hw h w g.
Proof.
  intros Hfg. unfold sum_hw. apply fold_left_ext_in. intros acc i Hi.
  apply in_seq in Hi. apply fold_left_ext_in. intros acc' j Hj. apply in_seq in Hj.
  rewrite Hfg by lia. reflexivity.
Qed.

Lemma rows_ok_multiply (w c : nat) (d1 d2 : list (list (list F))) :
  rows_ok w c d1 -> rows_ok w c d2 -> rows_ok w c (multiply d1 d2).
Proof.
  unfold multiply. intros H1. revert d2.
  induction H1 as [|r1 d1 [Hw1 Hp1] H1 IH]; intros d2 H2; [constructor|].
  destruct H2 as [|r2 d2 [Hw2 Hp2] H2]; [constructor|]. simpl. constructor.
  - split; [rewrite length_zip_with; lia|].
    clear Hw1 Hw2. revert r2 Hp2.
    induction Hp1 as [|p1 r1 Hl1 Hp1 IHp]; intros r2 Hp2; [constructor|].
    destruct Hp2 as [|p2 r2 Hl2 Hp2]; [constructor|]. simpl. constructor.
    + rewrite length_zip_with. lia.
    + now apply IHp.
  - now apply IH.
Qed.

Lemma px_multiply (a m : ndarray3 F) (i j k : nat) :
  well_shaped a = true -> well_shaped m = true -> shape3 a = shape3 m ->
  (i < height a)%nat -> (j < width a)%nat -> (k < channels a)%nat ->
  nth k (nth j (nth i (multiply (data a) (data m)) []) []) zero =
  mul (px a i j k) (px m i j k).
Proof.
  intros Ha Hm Hs Hi Hj Hk. unfold shape3 in Hs. injection Hs as Hh Hw Hc.
  apply well_shaped_spec in Ha. apply well_shaped_spec in Hm.
  destruct Ha as [Hla Hra]. destruct Hm as [Hlm Hrm].
  destruct (rows_ok_nth _ _ i _ Hra) as [Hwa Hpa]; [lia|].
  destruct (rows_ok_nth _ _ i _ Hrm) as [Hwm Hpm]; [lia|].
  unfold multiply, px.
  rewrite (nth_zip_with_gen _ _ _ i [] [] []) by lia.
  rewrite (nth_zip_with_gen _ _ _ j [] [] []) by lia.
  unfold pixels_ok in Hpa, Hpm. rewrite Forall_forall in Hpa, Hpm.
  apply (nth_zip_with_gen mul).
  - rewrite (Hpa (nth j (nth i (data a) []) [])); [lia|].
    apply list_elem_of_In, nth_In. lia.
  - rewrite (Hpm (nth j (nth i (data m) []) [])); [lia|].
    apply list_elem_of_In, nth_In. lia.
Qed.

Lemma existsb_false_nth (f : F -> bool) (l : list F) (d : F) :
  existsb f l = false <-> forall k, (k < length l)%nat -> f (nth k l d) = false.
Proof.
  induction l as [|x l IH]; simpl.
  - split; [intros _ k Hk; lia | reflexivity].
  - rewrite orb_false_iff, IH. split.
    + intros [Hx Hl] [|k] Hk; [assumption | apply Hl; lia].
    + intros Hall. split; [apply (Hall 0%nat); lia|].
      intros k Hk. apply (Hall (S k)). lia.
Qed.

Lemma shape_eqb_eq (s t : nat * nat * nat) : shape_eqb s t = true <-> s = t.
Proof.
  destruct s as [[h1 w1] c1], t as [[h2 w2] c2]. unfold shape_eqb.
  rewrite !andb_true_iff, !Nat.eqb_eq. split.
  - intros [[-> ->] ->]. reflexivity.
  - intros Heq. injection Heq as -> -> ->. auto.
Qed.

(** [average] on arrays of one shape whose weights sum to something that
    is not zero in each channel: the weighted means. *)
Lemma average_spec (a m : ndarray3 F) :
  well_shaped a = true -> well_shaped m = true -> shape3 a = shape3 m ->
  (forall k, (k < channels m)%nat -> eq_zero (weight_sum m k) = false) ->
  exists v, average a m = Ok v
    /\ dtype1 v = average_dtype (dtype3 a) (dtype3 m)
    /\ length (items v) = channels m
    /\ forall k, (k < channels m)%nat -> nth k (items v) zero = weighted_mean a m k.
Proof.
  intros Ha Hm Hs Hnz. unfold average.
  assert (Hs' : shape_eqb (shape3 a) (shape3 m) = true) by now apply shape_eqb_eq.
  rewrite Hs'. simpl.
  pose proof Hs as Hs2. unfold shape3 in Hs2. injection Hs2 as Hh Hw Hc.
  pose proof (proj1 (well_shaped_spec a) Ha) as [Hla Hra].
  pose proof (proj1 (well_shaped_spec m) Hm) as [Hlm Hrm].
  assert (Hlen : length (sum_axis01 (channels m) (data m)) = channels m)
    by (apply (length_sum_axis01 (width m)); assumption).
  assert (Hex : existsb eq_zero (sum_axis01 (channels m) (data m)) = false).
  { apply (existsb_false_nth _ _ zero). intros k Hk. rewrite Hlen in Hk.
    rewrite sum_axis01_channel by assumption. now apply Hnz. }
  rewrite Hex. eexists. split; [reflexivity|]. simpl.
  assert (Hrmul : rows_ok (width a) (channels a) (multiply (data a) (data m))).
  { apply rows_ok_multiply; [assumption|]. now rewrite Hw, Hc. }
  assert (Hlmul : length (sum_axis01 (channels a) (multiply (data a) (data m))) = channels a)
    by (apply (length_sum_axis01 (width a)); assumption).
  split; [reflexivity|]. split; [rewrite length_zip_with; lia|].
  intros k Hk. rewrite (nth_zip_with_gen div _ _ k zero zero) by lia.
  unfold weighted_mean. f_equal.
  - destruct (sum_axis01_nth (width a) (channels a) k _ Hrmul) as [_ Hn]; [lia|].
    rewrite Hn.
    rewrite (sum_nested_positions _ (height a) (width a) (channels a)); try assumption.
    + apply sum_hw_ext. intros i j Hi Hj. apply px_multiply; try assumption. lia.
    + unfold multiply. rewrite length_zip_with. lia.
  - now apply sum_axis01_channel.
Qed.

(** A channel whose weights sum to zero makes [average] raise. *)
Lemma average_zero_sum (a m : ndarray3 F) (k : nat) :
  well_shaped m = true -> shape3 a = shape3 m ->
  (k < channels m)%nat -> eq_zero (weight_sum m k) = true ->
  average a m = Raise ZeroDivisionError.
Proof.
  intros Hm Hs Hk Hz. unfold average.
  assert (Hs' : shape_eqb (shape3 a) (shape3 m) = true) by now apply shape_eqb_eq.
  rewrite Hs'. simpl.
  pose proof (proj1 (well_shaped_spec m) Hm) as [Hlm Hrm].
  assert (Hlen : length (sum_axis01 (channels m) (data m)) = channels m)
    by (apply (length_sum_axis01 (width m)); assumption).
  destruct (existsb eq_zero (sum_axis01 (channels m) (data m))) eqn:Hex; [reflexivity|].
  rewrite (existsb_false_nth _ _ zero) in Hex. specialize (Hex k).
  rewrite Hlen, sum_axis01_channel in Hex by assumption.
  unfold weight_sum in Hz. rewrite Hex in Hz by assumption. discriminate.
Qed.

Lemma broadcast_len_same (n : nat) : broadcast_len n n = Some n.
Proof. unfold broadcast_len. now rewrite Nat.eqb_refl. Qed.

Lemma stretch_same (n : nat) (v : list F) : length v = n -> stretch n v = v.
Proof. intros Hl. unfold stretch. rewrite Hl. now rewrite Nat.eqb_refl. Qed.

(** What a successful [average] tells about its arguments. *)
Lemma average_ok_inv (a m : ndarray3 F) (v : ndarray1 F) :
  well_shaped a = true -> well_shaped m = true -> average a m = Ok v ->
  shape3 a = shape3 m
  /\ length (items v) = channels m
  /\ dtype1 v = average_dtype (dtype3 a) (dtype3 m)
  /\ forall k, (k < channels m)%nat -> eq_zero (weight_sum m k) = false.
Proof.
  intros Ha Hm. unfold average.
  destruct (shape_eqb (shape3 a) (shape3 m)) eqn:Hs; simpl; [|discriminate].
  apply shape_eqb_eq in Hs.
  destruct (existsb eq_zero (sum_axis01 (channels m) (data m))) eqn:Hex; [discriminate|].
  intros Hv. injection Hv as <-. simpl.
  pose proof Hs as Hs2. unfold shape3 in Hs2. injection Hs2 as Hh Hw Hc.
  pose proof (proj1 (well_shaped_spec a) Ha) as [Hla Hra].
  pose proof (proj1 (well_shaped_spec m) Hm) as [Hlm Hrm].
  assert (Hlen : length (sum_axis01 (channels m) (data m)) = channels m)
    by (apply (length_sum_axis01 (width m)); assumption).
  assert (Hlmul : length (sum_axis01 (channels a) (multiply (data a) (data m))) = channels a).
  { apply (length_sum_axis01 (width a)). apply rows_ok_multiply; [assumption|].
    now rewrite Hw, Hc. }
  repeat split; try assumption.
  - rewrite length_zip_with. lia.
  - intros k Hk. rewrite (existsb_false_nth _ _ zero) in Hex.
    unfold weight_sum. rewrite <- sum_axis01_channel by assumption.
    apply Hex. lia.
Qed.

Lemma px_add_broadcast (a : ndarray3 F) (v : list F) (i j k : nat) :
  well_shaped a = true -> length v = channels a ->
  (i < height a)%nat -> (j < width a)%nat -> (k < channels a)%nat ->
  nth k (nth j (nth i
      (map (map (fun p => zip_with add (stretch (channels a) p) (stretch (channels a) v)))
           (data a)) []) []) zero
  = add (px a i j k) (nth k v zero).
Proof.
  intros Ha Hv Hi Hj Hk.
  pose proof (proj1 (well_shaped_spec a) Ha) as [Hla Hra].
  destruct (rows_ok_nth _ _ i _ Hra) as [Hwa Hpa]; [lia|].
  set (f := fun p => zip_with add (stretch (channels a) p) (stretch (channels a) v)).
  change (@nil (list F)) with (map f []) at 1. rewrite map_nth.
  rewrite (nth_indep _ [] (f [])) by (rewrite length_map; lia).
  rewrite map_nth. unfold f.
  assert (Hp : length (nth j (nth i (data a) []) []) = channels a).
  { unfold pixels_ok in Hpa. rewrite Forall_forall in Hpa. apply Hpa.
    apply list_elem_of_In, nth_In. lia. }
  rewrite !stretch_same by assumption.
  unfold px. apply (nth_zip_with_gen add); lia.
Qed.

Lemma well_shaped_add_broadcast (a : ndarray3 F) (v : list F) (dt : dtype) :
  well_shaped a = true -> length v = channels a ->
  well_shaped
    {| dtype3 := dt; height := height a; width := width a; channels := channels a;
       data := map (map (fun p =>
                 zip_with add (stretch (channels a) p) (stretch (channels a) v)))
                 (data a) |} = true.
Proof.
  intros Ha Hv. apply well_shaped_spec. simpl.
  pose proof (proj1 (well_shaped_spec a) Ha) as [Hla Hra].
  split; [now rewrite length_map|].
  unfold rows_ok in *. rewrite Forall_forall in *. intros row Hrow.
  apply list_elem_of_In, in_map_iff in Hrow. destruct Hrow as [row0 [<- Hin]].
  apply list_elem_of_In in Hin. destruct (Hra row0 Hin) as [Hw Hp].
  split; [now rewrite length_map|].
  unfold pixels_ok in *. rewrite Forall_forall in *. intros p Hin'.
  apply list_elem_of_In, in_map_iff in Hin'. destruct Hin' as [p0 [<- Hin0]].
  apply list_elem_of_In in Hin0. specialize (Hp p0 Hin0).
  rewrite !stretch_same by lia. rewrite length_zip_with. lia.
Qed.

(** [process] on arrays of one shape with weights that can be normalized. *)
Lemma process_spec (old_face new_face raw_mask : ndarray3 F) :
  same_shapes old_face new_face raw_mask ->
  weights_normalizable raw_mask ->
  exists out, process old_face new_face raw_mask = Ok out
    /\ shape3 out = shape3 new_face
    /\ well_shaped out = true
    /\ dtype3 out = process_dtype (dtype3 old_face) (dtype3 new_face) (dtype3 raw_mask)
    /\ forall i j k,
         (i < height new_face)%nat -> (j < width new_face)%nat ->
         (k < channels new_face)%nat ->
         px out i j k =
         add (px new_face i j k)
             (sub (weighted_mean old_face raw_mask k)
                  (weighted_mean new_face raw_mask k)).
Proof.
  intros (Ho & Hn & Hm & Hso & Hsn) Hnz.
  destruct (average_spec old_face raw_mask Ho Hm Hso Hnz) as (vo & Eo & Hdo & Hlo & Hvo).
  destruct (average_spec new_face raw_mask Hn Hm Hsn Hnz) as (vn & En & Hdn & Hln & Hvn).
  pose proof Hsn as Hs2. unfold shape3 in Hs2. injection Hs2 as Hh Hw Hc.
  unfold process. rewrite Eo. simpl. rewrite En. simpl.
  unfold subtract. rewrite Hlo, Hln, broadcast_len_same. simpl.
  unfold add_broadcast. simpl. rewrite !stretch_same by assumption.
  rewrite length_zip_with, Hlo, Hln, Nat.min_id, <- Hc, broadcast_len_same.
  assert (Hshift : length (zip_with sub (items vo) (items vn)) = channels new_face)
    by (rewrite length_zip_with; lia).
  eexists. split; [reflexivity|]. simpl.
  split; [reflexivity|].
  split; [now apply well_shaped_add_broadcast|].
  split; [unfold process_dtype; now rewrite Hdo, Hdn|].
  intros i j k Hi Hj Hk. unfold px at 1. simpl.
  rewrite px_add_broadcast by assumption. f_equal.
  rewrite (nth_zip_with_gen sub _ _ k zero zero) by lia.
  rewrite Hvo, Hvn by lia. reflexivity.
Qed.

(** A successful [process] had arrays of one shape and weights that can
    be normalized. *)
Lemma process_ok_inv (old_face new_face raw_mask out : ndarray3 F) :
  well_shaped old_face = true -> well_shaped new_face = true ->
  well_shaped raw_mask = true ->
  process old_face new_face raw_mask = Ok out ->
  same_shapes old_face new_face raw_mask /\ weights_normalizable raw_mask.
Proof.
  intros Ho Hn Hm. unfold process.
  destruct (average old_face raw_mask) as [vo|] eqn:Eo; simpl; [|discriminate].
  destruct (average new_face raw_mask) as [vn|] eqn:En; simpl; [|discriminate].
  intros _.
  destruct (average_ok_inv _ _ _ Ho Hm Eo) as (Hso & _ & _ & Hnz).
  destruct (average_ok_inv _ _ _ Hn Hm En) as (Hsn & _ & _ & _).
  split; [repeat split; assumption | exact Hnz].
Qed.

(** A channel whose weights sum to zero makes [process] raise: nothing
    in [process] catches the exception of [average]. *)
Lemma process_zero_sum (old_face new_face raw_mask : ndarray3 F) (k : nat) :
  same_shapes old_face new_face raw_mask ->
  (k < channels raw_mask)%nat -> eq_zero (weight_sum raw_mask k) = true ->
  process old_face new_face raw_mask = Raise ZeroDivisionError.
Proof.
  intros (Ho & Hn & Hm & Hso & Hsn) Hk Hz. unfold process.
  now rewrite (average_zero_sum old_face raw_mask k).
Qed.

Lemma fold_left_invariant {A B : Type} (P : B -> Prop) (f : B -> A -> B) (l : list A) (s : B) :
  P s -> (forall acc x, In x l -> P acc -> P (f acc x)) -> P (fold_left f l s).
Proof.
  revert s. induction l as [|x l IH]; intros s Hs Hstep; simpl; [assumption|].
  apply IH.
  - apply Hstep; [now left | assumption].
  - intros acc y Hy. apply Hstep. now right.
Qed.

(** A sum of zeros is zero, for an arithmetic in which zero plus zero is. *)
Lemma sum_hw_zero (h w : nat) (f : nat -> nat -> F) :
  eq_zero zero = true ->
  (forall x y, eq_zero x = true -> eq_zero y = true -> eq_zero (add x y) = true) ->
  (forall i j, (i < h)%nat -> (j < w)%nat -> eq_zero (f i j) = true) ->
  eq_zero (sum_hw h w f) = true.
Proof.
  intros Hz Hadd Hf. unfold sum_hw.
  apply (fold_left_invariant (fun acc => eq_zero acc = true)); [assumption|].
  intros acc i Hi Hacc. apply in_seq in Hi.
  apply (fold_left_invariant (fun acc => eq_zero acc = true)); [assumption|].
  intros acc' j Hj Hacc'. apply in_seq in Hj. apply Hadd; [assumption|].
  apply Hf; lia.
Qed.

Lemma all_zero_weights_px (m : ndarray3 F) (i j k : nat) :
  well_shaped m = true -> all_zero_weights m = true ->
  (i < height m)%nat -> (j < width m)%nat -> (k < channels m)%nat ->
  eq_zero (px m i j k) = true.
Proof.
  intros Hm Hall Hi Hj Hk.
  pose proof (proj1 (well_shaped_spec m) Hm) as [Hlm Hrm].
  destruct (rows_ok_nth _ _ i _ Hrm) as [Hw Hp]; [lia|].
  unfold pixels_ok in Hp. rewrite Forall_forall in Hp.
  unfold all_zero_weights in Hall. rewrite forallb_forall in Hall.
  assert (Hrow : forallb (forallb eq_zero) (nth i (data m) []) = true)
    by (apply Hall, nth_In; lia).
  rewrite forallb_forall in Hrow.
  assert (Hpx : forallb eq_zero (nth j (nth i (data m) []) []) = true)
    by (apply Hrow, nth_In; lia).
  rewrite forallb_forall in Hpx. apply Hpx. apply nth_In.
  rewrite (Hp (nth j (nth i (data m) []) [])); [lia|].
  apply list_elem_of_In, nth_In. lia.
Qed.

End Facts.

(** With exact arithmetic: weights that are not negative, one of which
    is not zero in each channel, can be normalized. *)
Lemma fold_left_grows {A : Type} (step : Q -> A -> Q) (l : list A) (s : Q) :
  (forall acc x, In x l -> (acc <= step acc x)%Q) ->
  (s <= fold_left step l s)%Q.
Proof.
  revert s. induction l as [|x l IH]; intros s Hstep; simpl; [apply Qle_refl|].
  apply Qle_trans with (step s x).
  - apply Hstep. now left.
  - apply IH. intros acc y Hy. apply Hstep. now right.
Qed.

Lemma fold_left_grows_strictly {A : Type} (step : Q -> A -> Q) (l : list A) (s : Q) (x0 : A) :
  (forall acc x, In x l -> (acc <= step acc x)%Q) ->
  In x0 l -> (forall acc, (acc < step acc x0)%Q) ->
  (s < fold_left step l s)%Q.
Proof.
  revert s. induction l as [|x l IH]; intros s Hstep Hin Hx0; simpl; [destruct Hin|].
  destruct Hin as [->|Hin].
  - apply Qlt_le_trans with (step s x0); [apply Hx0|].
    apply fold_left_grows. intros acc y Hy. apply Hstep. now right.
  - apply Qle_lt_trans with (step s x).
    + apply Hstep. now left.
    + apply IH; [|assumption|assumption]. intros acc y Hy. apply Hstep. now right.
Qed.

Lemma sum_hw_positive (h w : nat) (f : nat -> nat -> Q) (i0 j0 : nat) :
  (forall i j, (i < h)%nat -> (j < w)%nat -> (0 <= f i j)%Q) ->
  (i0 < h)%nat -> (j0 < w)%nat -> (0 < f i0 j0)%Q ->
  (0 < sum_hw h w f)%Q.
Proof.
  intros Hf Hi0 Hj0 Hpos. unfold sum_hw.
  assert (Hinner : forall i acc, (i < h)%nat ->
            (acc <= fold_left (fun acc j => add acc (f i j)) (seq 0 w) acc)%Q).
  { intros i acc Hi. apply fold_left_grows. intros acc' j Hj. apply in_seq in Hj.
    simpl. rewrite <- (Qplus_0_r acc') at 1. apply Qplus_le_r. apply Hf; lia. }
  apply (fold_left_grows_strictly _ _ _ i0).
  - intros acc i Hi. apply in_seq in Hi. apply Hinner. lia.
  - apply in_seq. lia.
  - intros acc. apply (fold_left_grows_strictly _ _ _ j0).
    + intros acc' j Hj. apply in_seq in Hj. simpl.
      rewrite <- (Qplus_0_r acc') at 1. apply Qplus_le_r. apply Hf; lia.
    + apply in_seq. lia.
    + intros acc'. simpl. rewrite <- (Qplus_0_r acc') at 1.
      apply Qplus_lt_r. assumption.
Qed.

Lemma nonnegative_weights_normalizable (raw_mask : ndarray3 Q) :
  (forall i j k, (0 <= px raw_mask i j k)%Q) ->
  (forall k, (k < channels raw_mask)%nat ->
     exists i j, (i < height raw_mask)%nat /\ (j < width raw_mask)%nat
                 /\ ~ (px raw_mask i j k == 0)%Q) ->
  weights_normalizable raw_mask.
Proof.
  intros Hnn Hsome k Hk. destruct (Hsome k Hk) as (i0 & j0 & Hi0 & Hj0 & Hne).
  simpl. apply not_true_is_false. intros Heq. apply Qeq_bool_iff in Heq.
  assert (Hpos : (0 < weight_sum raw_mask k)%Q).
  { apply (sum_hw_positive _ _ _ i0 j0); try assumption.
    - intros i j _ _. apply Hnn.
    - destruct (Qle_lt_or_eq _ _ (Hnn i0 j0 k)) as [Hlt|Heq0]; [assumption|].
      exfalso. apply Hne. now symmetry. }
  rewrite Heq in Hpos. now apply Qlt_irrefl in Hpos.
Qed.



Ltac solve_same_shapes := repeat split; reflexivity.

Ltac solve_two_channels :=
  let k := fresh "k" in
  let Hk := fresh "Hk" in
  intros k Hk; simpl in Hk;
  destruct k as [|[|k]]; [reflexivity | reflexivity | lia].

(** C3 (as amended).  For arrays of one shape and a mask whose weights
    sum, in every channel, to something that is not zero, [process]
    returns the transformed array shifted, channel by channel, by the
    mask-weighted mean of the original minus the mask-weighted mean of the
    transformed array; each mean is taken over the two spatial axes of one
    channel.  The sum is returned as it is: nothing clamps it. *)
Theorem process_shifts_by_mean_difference
    {F : Type} `{Arith F} (old_face new_face raw_mask : ndarray3 F) :
  same_shapes old_face new_face raw_mask ->
  weights_normalizable raw_mask ->
  exists out, process old_face new_face raw_mask = Ok out
    /\ shape3 out = shape3 new_face
    /\ forall i j k,
         (i < height new_face)%nat -> (j < width new_face)%nat ->
         (k < channels new_face)%nat ->
         px out i j k =
         add (px new_face i j k)
             (sub (weighted_mean old_face raw_mask k)
                  (weighted_mean new_face raw_mask k)).
Proof.
  intros Hs Hnz.
  destruct (process_spec old_face new_face raw_mask Hs Hnz)
    as (out & E & Hshape & _ & _ & Hpx).
  exists out. auto.
Qed.

Lemma process_shifts_by_mean_difference_witness :
  exists out, process column_old column_new column_full_mask = Ok out
    /\ shape3 out = shape3 column_new
    /\ forall i j k,
         (i < height column_new)%nat -> (j < width column_new)%nat ->
         (k < channels column_new)%nat ->
         px out i j k =
         add (px column_new i j k)
             (sub (weighted_mean column_old column_full_mask k)
                  (weighted_mean column_new column_full_mask k)).
Proof.
  apply process_shifts_by_mean_difference.
  - solve_same_shapes.
  - solve_two_channels.
Defined.

(** C3 as stated fails: the mask [column_mask] has weights that are not
    zero, but none in its second channel, and [process] raises instead of
    returning the shifted array. *)
Lemma process_raises_with_a_nonzero_weight :
  ~ (same_shapes column_old column_new column_mask ->
     has_nonzero_weight column_mask = true ->
     exists out, process column_old column_new column_mask = Ok out
       /\ forall i j k,
            (i < height column_new)%nat -> (j < width column_new)%nat ->
            (k < channels column_new)%nat ->
            px out i j k =
            add (px column_new i j k)
                (sub (weighted_mean column_old column_mask k)
                     (weighted_mean column_new column_mask k))).
Proof.
  intros Hclaim.
  destruct Hclaim as (out & E & _); [solve_same_shapes | reflexivity |].
  vm_compute in E. discriminate E.
Qed.

(** The shifted values are not clamped: from values in the unit interval
    [process] produces a value above one. *)
Example process_leaves_the_unit_interval :
  exists out, process bright_old bright_new bright_mask = Ok out
    /\ (1 < px out 0 0 0)%Q.
Proof.
  eexists. split; [vm_compute; reflexivity|]. vm_compute. reflexivity.
Qed.

(** One pixel of value 50 against an original of value 100, all weights
    one: the shifted value is 50 + (100 - 50). *)
Example process_one_pixel :
  process one_pixel_old one_pixel_new one_pixel_full_mask
  = Ok (image [[[100; 100]]]%Q 1 1 2).
Proof. vm_compute. reflexivity. Qed.

(** C8 (as amended).  [process] has no guard against weights that cannot
    be normalized.  If in every channel the weights of the mask sum to
    something that is not zero, both weighted means are defined and the
    call succeeds; if the weights of some channel sum to zero the call
    fails with [ZeroDivisionError], and so it does for a mask that is
    zero everywhere. *)
Theorem process_zero_weights_unguarded
    {F : Type} `{Arith F} (old_face new_face raw_mask : ndarray3 F) :
  same_shapes old_face new_face raw_mask ->
  (weights_normalizable raw_mask ->
     exists old_mean new_mean out,
       average old_face raw_mask = Ok old_mean
       /\ average new_face raw_mask = Ok new_mean
       /\ process old_face new_face raw_mask = Ok out)
  /\ (forall k, (k < channels raw_mask)%nat ->
        eq_zero (weight_sum raw_mask k) = true ->
        process old_face new_face raw_mask = Raise ZeroDivisionError)
  /\ (eq_zero zero = true ->
      (forall x y, eq_zero x = true -> eq_zero y = true -> eq_zero (add x y) = true) ->
      (0 < channels raw_mask)%nat -> all_zero_weights raw_mask = true ->
      process old_face new_face raw_mask = Raise ZeroDivisionError).
Proof.
  intros Hs. split; [|split].
  - intros Hnz. pose proof Hs as (Ho & Hn & Hm & Hso & Hsn).
    destruct (average_spec old_face raw_mask Ho Hm Hso Hnz) as (vo & Eo & _).
    destruct (average_spec new_face raw_mask Hn Hm Hsn Hnz) as (vn & En & _).
    destruct (process_spec old_face new_face raw_mask Hs Hnz) as (out & E & _).
    exists vo, vn, out. auto.
  - intros k Hk Hz. now apply (process_zero_sum old_face new_face raw_mask k).
  - intros Hzero Hadd Hc Hall. pose proof Hs as (Ho & Hn & Hm & Hso & Hsn).
    apply (process_zero_sum old_face new_face raw_mask 0 Hs Hc).
    unfold weight_sum. apply sum_hw_zero; try assumption.
    intros i j Hi Hj. now apply all_zero_weights_px.
Qed.

Lemma Q_zero_plus_zero (x y : Q) :
  eq_zero x = true -> eq_zero y = true -> eq_zero (add x y) = true.
Proof.
  simpl. rewrite !Qeq_bool_iff. intros -> ->. reflexivity.
Qed.

Lemma process_zero_weights_unguarded_witness :
  (exists old_mean new_mean out,
     average one_pixel_old one_pixel_full_mask = Ok old_mean
     /\ average one_pixel_new one_pixel_full_mask = Ok new_mean
     /\ process one_pixel_old one_pixel_new one_pixel_full_mask = Ok out)
  /\ process one_pixel_old one_pixel_new one_pixel_zero_mask = Raise ZeroDivisionError.
Proof.
  split.
  - apply (process_zero_weights_unguarded one_pixel_old one_pixel_new one_pixel_full_mask).
    + solve_same_shapes.
    + solve_two_channels.
  - apply (process_zero_weights_unguarded one_pixel_old one_pixel_new one_pixel_zero_mask).
    + solve_same_shapes.
    + reflexivity.
    + exact Q_zero_plus_zero.
    + simpl. lia.
    + reflexivity.
Defined.

(** C8 as stated fails: [one_pixel_mask] contains a weight that is not
    zero, and the call does not succeed. *)
Lemma process_fails_despite_nonzero_weight :
  ~ (same_shapes one_pixel_old one_pixel_new one_pixel_mask ->
     has_nonzero_weight one_pixel_mask = true ->
     exists out, process one_pixel_old one_pixel_new one_pixel_mask = Ok out).
Proof.
  intros Hclaim.
  destruct Hclaim as (out & E); [solve_same_shapes | reflexivity |].
  vm_compute in E. discriminate E.
Qed.

Lemma result_type_same (d : dtype) : result_type d d = d.
Proof. now destruct d. Qed.

(** C9 (as amended).  For well-formed arrays of one floating element
    type (the docstring of [process] asks for [float32]), the array that
    [process] returns has the shape and the element type of [new_face];
    and it does return one when the shapes agree and the weights can be
    normalized. *)
Theorem process_keeps_shape_and_dtype
    {F : Type} `{Arith F} (old_face new_face raw_mask : ndarray3 F) (d : dtype) :
  well_shaped old_face = true -> well_shaped new_face = true ->
  well_shaped raw_mask = true ->
  is_floating d = true ->
  dtype3 old_face = d -> dtype3 new_face = d -> dtype3 raw_mask = d ->
  (forall out, process old_face new_face raw_mask = Ok out ->
     shape3 out = shape3 new_face /\ dtype3 out = dtype3 new_face
     /\ well_shaped out = true)
  /\ (shape3 old_face = shape3 raw_mask -> shape3 new_face = shape3 raw_mask ->
      weights_normalizable raw_mask ->
      exists out, process old_face new_face raw_mask = Ok out).
Proof.
  intros Ho Hn Hm Hd Hdo Hdn Hdm. split.
  - intros out E.
    destruct (process_ok_inv _ _ _ _ Ho Hn Hm E) as [Hs Hnz].
    destruct (process_spec old_face new_face raw_mask Hs Hnz)
      as (out' & E' & Hshape & Hwf & Hdt & _).
    rewrite E in E'. injection E' as <-.
    repeat split; try assumption.
    rewrite Hdt, Hdo, Hdn, Hdm. unfold process_dtype, average_dtype.
    unfold is_floating in Hd. apply negb_true_iff in Hd. rewrite Hd.
    now rewrite !result_type_same.
  - intros Hso Hsn Hnz.
    destruct (process_spec old_face new_face raw_mask) as (out & E & _);
      [repeat split; assumption | assumption |].
    now exists out.
Qed.

Lemma process_keeps_shape_and_dtype_witness :
  (forall out, process column_old column_new column_full_mask = Ok out ->
     shape3 out = shape3 column_new /\ dtype3 out = dtype3 column_new
     /\ well_shaped out = true)
  /\ (shape3 column_old = shape3 column_full_mask ->
      shape3 column_new = shape3 column_full_mask ->
      weights_normalizable column_full_mask ->
      exists out, process column_old column_new column_full_mask = Ok out).
Proof.
  apply (process_keeps_shape_and_dtype column_old column_new column_full_mask Float32);
    reflexivity.
Defined.

(** The element type is not kept for arrays of integers: the means are
    taken in [float64]. *)
Remark process_dtype_of_integers : process_dtype UInt8 UInt8 UInt8 = Float64.
Proof. reflexivity. Qed.

(** C9 as stated fails: for arrays of bytes of one shape, with weights
    that can be normalized, [process] returns an array of [float64], not
    of the element type of [new_face]. *)
Lemma process_of_bytes_gives_float64 :
  ~ (same_shapes byte_old byte_new byte_mask ->
     weights_normalizable byte_mask ->
     forall out, process byte_old byte_new byte_mask = Ok out ->
       shape3 out = shape3 byte_new /\ dtype3 out = dtype3 byte_new).
Proof.
  intros Hclaim.
  destruct (process byte_old byte_new byte_mask) as [out|e] eqn:E;
    [|vm_compute in E; discriminate E].
  destruct (Hclaim ltac:(solve_same_shapes) ltac:(solve_two_channels) out eq_refl)
    as [_ Hd].
  vm_compute in E. injection E as <-. discriminate Hd.
Qed.

End AvgColorFacts.

(** ** Training configuration *)

Module TrainConfigFacts.
Import Py PyStr TrainConfig.

(** *** The monad *)

Lemma bind_ok {A B : Type} (m : M A) (f : A -> M B) (r r' : registry) (a : A) :
  m r = (Ok a, r') -> (x ← m; f x) r = f a r'.
Proof. intros E. unfold mbind, M_bind. now rewrite E. Qed.

Lemma bind_raise {A B : Type} (m : M A) (f : A -> M B) (r r' : registry) (e : exn) :
  m r = (Raise e, r') -> (x ← m; f x) r = (Raise e, r').
Proof. intros E. unfold mbind, M_bind. now rewrite E. Qed.

Lemma for_each_app {A : Type} (l1 l2 : list A) (body : A -> M unit) (r : registry) :
  for_each (l1 ++ l2)%list body r =
  match for_each l1 body r with
  | (Ok _, r') => for_each l2 body r'
  | (Raise e, r') => (Raise e, r')
  end.
Proof.
  revert r. induction l1 as [|x l1 IH]; intros r; simpl; [reflexivity|].
  unfold mbind, M_bind. destruct (body x r) as [[[]|e] r1]; [apply IH | reflexivity].
Qed.

Lemma for_each_flat_map {A B : Type} (f : A -> list B) (l : list A) (body : B -> M unit)
    (r : registry) :
  for_each (flat_map f l) body r = for_each l (fun x => for_each (f x) body) r.
Proof.
  revert r. induction l as [|x l IH]; intros r; simpl; [reflexivity|].
  rewrite for_each_app. unfold mbind, M_bind.
  destruct (for_each (f x) body r) as [[[]|e] r1]; [apply IH | reflexivity].
Qed.

Lemma for_each_map {A B : Type} (f : A -> B) (l : list A) (body : B -> M unit) (r : registry) :
  for_each (map f l) body r = for_each l (fun x => body (f x)) r.
Proof.
  revert r. induction l as [|x l IH]; intros r; simpl; [reflexivity|].
  unfold mbind, M_bind. destruct (body (f x) r) as [[[]|e] r1]; [apply IH | reflexivity].
Qed.

Lemma for_each_ext {A : Type} (l : list A) (body1 body2 : A -> M unit) (r : registry) :
  (forall x r, body1 x r = body2 x r) -> for_each l body1 r = for_each l body2 r.
Proof.
  intros Hb. revert r. induction l as [|x l IH]; intros r; simpl; [reflexivity|].
  unfold mbind, M_bind. rewrite Hb. destruct (body2 x r) as [[[]|e] r1]; [apply IH | reflexivity].
Qed.

(** *** Association lists *)

Lemma assoc_app {V : Type} (k : string) (l1 l2 : list (string * V)) :
  assoc k (l1 ++ l2)%list =
  match assoc k l1 with Some v => Some v | None => assoc k l2 end.
Proof.
  induction l1 as [|[k' v'] l1 IH]; simpl; [reflexivity|].
  destruct (String.eqb k k'); [reflexivity | apply IH].
Qed.

Lemma assoc_None {V : Type} (k : string) (l : list (string * V)) :
  assoc k l = None <-> ~ In k (map fst l).
Proof.
  induction l as [|[k' v'] l IH]; simpl; [tauto|].
  destruct (String.eqb_spec k k') as [->|Hne].
  - split; [discriminate | intros Hn; exfalso; apply Hn; now left].
  - rewrite IH. split; [intros Hn [Heq|Hin]; [congruence | tauto] | tauto].
Qed.

Lemma assoc_set_last {V : Type} (k : string) (v0 v : V) (l : list (string * V)) :
  assoc k l = None -> assoc_set k v (l ++ [(k, v0)])%list = (l ++ [(k, v)])%list.
Proof.
  induction l as [|[k' v'] l IH]; simpl.
  - intros _. now rewrite String.eqb_refl.
  - destruct (String.eqb k k'); [discriminate|]. intros Hn. now rewrite IH.
Qed.

Lemma assoc_assoc_set_other {V : Type} (k k' : string) (v : V) (l : list (string * V)) :
  k <> k' -> assoc k (assoc_set k' v l) = assoc k l.
Proof.
  intros Hne. induction l as [|[k0 v0] l IH]; simpl; [reflexivity|].
  destruct (String.eqb_spec k' k0) as [Heq|Hne0]; simpl.
  - subst k0. destruct (String.eqb_spec k k'); [congruence | reflexivity].
  - destruct (String.eqb k k0); [reflexivity | apply IH].
Qed.

Lemma assoc_assoc_set_same {V : Type} (k : string) (v : V) (l : list (string * V)) :
  assoc k l <> None -> assoc k (assoc_set k v l) = Some v.
Proof.
  induction l as [|[k0 v0] l IH]; simpl; [congruence|].
  destruct (String.eqb_spec k k0) as [->|Hne]; simpl.
  - intros _. now rewrite String.eqb_refl.
  - intros Hn. destruct (String.eqb_spec k k0); [congruence | now apply IH].
Qed.

(** *** The registry operations *)

Lemma add_section_fresh (title info : string) (r : registry) :
  assoc title r = None ->
  add_section title info r =
  (Ok tt, (r ++ [(title, {| helptext := info; options := [] |})])%list).
Proof. intros Hn. unfold add_section. now rewrite Hn. Qed.

Lemma add_item_last (sect title h : string) (item : config_item)
    (opts : list (string * config_item)) (r : registry) :
  assoc sect r = None -> assoc title opts = None -> supported (datatype item) = true ->
  add_item sect title item (r ++ [(sect, {| helptext := h; options := opts |})])%list =
  (Ok tt,
   (r ++ [(sect, {| helptext := h; options := (opts ++ [(title, item)])%list |})])%list).
Proof.
  intros Hs Ht Hd. unfold add_item. rewrite assoc_app, Hs. simpl.
  rewrite String.eqb_refl. simpl. rewrite Ht, Hd. simpl.
  now rewrite assoc_set_last.
Qed.

Lemma add_items_last (sect h : string) (items opts : list (string * config_item))
    (r : registry) :
  assoc sect r = None ->
  NoDup (map fst (opts ++ items)%list) ->
  Forall (fun kv => supported (datatype (snd kv)) = true) items ->
  for_each items (fun kv => add_item sect (fst kv) (snd kv))
    (r ++ [(sect, {| helptext := h; options := opts |})])%list =
  (Ok tt, (r ++ [(sect, {| helptext := h; options := (opts ++ items)%list |})])%list).
Proof.
  intros Hs. revert opts. induction items as [|[k it] items IH]; intros opts Hnd Hsup; simpl.
  - now rewrite app_nil_r.
  - inversion Hsup as [|? ? Hit Hsup']; subst. simpl in Hit.
    assert (Hk : assoc k opts = None).
    { apply assoc_None. intros Hin. rewrite map_app in Hnd. simpl in Hnd.
      apply NoDup_ListNoDup in Hnd. apply NoDup_remove_2 in Hnd.
      apply Hnd. apply in_or_app. now left. }
    rewrite (bind_ok _ _ _ _ tt (add_item_last sect k h it opts r Hs Hk Hit)).
    rewrite IH; [| |assumption].
    + now rewrite <- app_assoc.
    + rewrite <- app_assoc. exact Hnd.
Qed.

(** *** [load_module] *)

Section Discovery.
Variable env : environment.

Lemma load_module_ok (call : string * string * string) (r : registry) :
  well_formed env call -> assoc (section_title call) r = None ->
  exists s, load env call r = (Ok tt, (r ++ [s])%list) /\ section_for env call s.
Proof.
  destruct call as [[filename module_path] plugin_type].
  intros (m & h & items & Hm & Hh & Hd & Hnd & Hsup) Hfresh.
  simpl in Hm, Hfresh.
  exists (section_title (filename, module_path, plugin_type),
          {| helptext := section_info (filename, module_path, plugin_type) h;
             options := items |}).
  split; [|exists m, h, items; auto].
  simpl. unfold load_module, import_module, join. simpl.
  rewrite Hm.
  erewrite bind_ok by reflexivity. rewrite Hh.
  erewrite bind_ok by reflexivity.
  erewrite bind_ok by (apply add_section_fresh; exact Hfresh).
  rewrite Hd.
  erewrite bind_ok by reflexivity.
  apply (add_items_last _ _ items []); assumption.
Qed.

Lemma well_formed_calls_load (calls : list (string * string * string)) (r : registry) :
  Forall (well_formed env) calls ->
  NoDup (map section_title calls) ->
  (forall c, In c calls -> assoc (section_title c) r = None) ->
  exists sections,
    for_each calls (load env) r = (Ok tt, (r ++ sections)%list)
    /\ Forall2 (section_for env) calls sections.
Proof.
  intros Hwf. revert r. induction Hwf as [|c calls Hc Hwf IH]; intros r Hnd Hfresh.
  - exists []. simpl. rewrite app_nil_r. split; [reflexivity | constructor].
  - simpl in Hnd. apply NoDup_cons in Hnd. destruct Hnd as [Hnotin Hnd].
    destruct (load_module_ok c r Hc) as (s & Es & Hs); [apply Hfresh; now left|].
    destruct (IH (r ++ [s])%list Hnd) as (sections & Erest & Hrest).
    + intros c' Hc'. rewrite assoc_app, (Hfresh c') by now right.
      destruct Hs as (m & h & items & _ & _ & _ & ->). simpl.
      destruct (String.eqb_spec (section_title c') (section_title c)) as [Heq|Hne];
        [|reflexivity].
      exfalso. apply Hnotin. rewrite <- Heq. apply list_elem_of_In, in_map, Hc'.
    + exists (s :: sections). simpl. rewrite (bind_ok _ _ _ _ tt Es), Erest.
      rewrite <- app_assoc. split; [reflexivity | now constructor].
Qed.

(** What a malformed module leaves behind: nothing, or the empty section
    that was added before [_DEFAULTS] was found missing. *)
Lemma load_module_malformed_registry (call : string * string * string) (r : registry) :
  malformed env call ->
  exists e r', load env call r = (Raise e, r')
    /\ (r' = r \/ exists s, r' = (r ++ [s])%list).
Proof.
  destruct call as [[filename module_path] plugin_type]. unfold malformed. simpl.
  unfold load_module, import_module.
  destruct (modules env !! (module_path ++ "." ++ (splitext filename).1)) as [m|] eqn:Em.
  - intros Hmal. erewrite bind_ok by reflexivity.
    destruct (mod_HELPTEXT m) as [h|] eqn:Hh.
    + erewrite bind_ok by reflexivity.
      destruct (assoc (join "." [plugin_type; replace (splitext filename).1 "_defaults" ""]) r)
        as [s|] eqn:Es.
      * erewrite bind_raise by (unfold add_section; rewrite Es; reflexivity). eauto.
      * erewrite bind_ok by (apply add_section_fresh; exact Es).
        destruct (mod_DEFAULTS m) as [items|] eqn:Hd;
          [destruct Hmal; discriminate|].
        erewrite bind_raise by reflexivity. eauto 6.
    + erewrite bind_raise by reflexivity. eauto.
  - intros _. erewrite bind_raise by reflexivity. eauto.
Qed.

Lemma for_each_raises {A : Type} (l : list A) (body : A -> M unit) (x : A) (r : registry) :
  In x l -> (forall r, exists e r', body x r = (Raise e, r')) ->
  exists e r', for_each l body r = (Raise e, r').
Proof.
  intros Hin Hx. revert r. induction l as [|y l IH]; intros r; [destruct Hin|].
  simpl. unfold mbind, M_bind. destruct Hin as [->|Hin].
  - destruct (Hx r) as (e & r' & E). rewrite E. eauto.
  - destruct (body y r) as [[[]|e] r1]; [now apply IH | eauto].
Qed.

(** [set_defaults] is [set_globals] followed by the discovered calls. *)
Lemma visit_directory_calls (entry : string * list string * list string) (r : registry) :
  visit_directory env entry r =
  for_each
    (let '(dirpath, _, filenames) := entry in
     map (fun filename => (filename, import_path_of env dirpath, plugin_type_of env dirpath))
         (defaults_in filenames))
    (load env) r.
Proof.
  destruct entry as [[dirpath dirnames] filenames]. unfold visit_directory.
  fold (defaults_in filenames). rewrite for_each_map.
  fold (import_path_of env dirpath). fold (plugin_type_of env dirpath).
  destruct (defaults_in filenames); reflexivity.
Qed.

Lemma set_defaults_calls (r : registry) :
  set_defaults env r = (_ ← set_globals env; for_each (discovered env) (load env)) r.
Proof.
  unfold set_defaults, discovered, mbind, M_bind.
  destruct (set_globals env r) as [[[]|e] r1]; [|reflexivity].
  rewrite for_each_flat_map. apply for_each_ext. apply visit_directory_calls.
Qed.

End Discovery.

(** A pass that meets a malformed module after well-formed ones leaves
    the sections of those in the registry. *)
Lemma sections_before_failure (env : environment)
    (before after : list (string * string * string)) (bad : string * string * string)
    (r : registry) :
  Forall (well_formed env) before ->
  NoDup (map section_title before) ->
  (forall c, In c before -> assoc (section_title c) r = None) ->
  malformed env bad ->
  exists e sections rest,
    for_each (before ++ bad :: after)%list (load env) r
    = (Raise e, (r ++ sections ++ rest)%list)
    /\ Forall2 (section_for env) before sections.
Proof.
  intros Hwf Hnd Hfresh Hmal.
  destruct (well_formed_calls_load env before r Hwf Hnd Hfresh) as (sections & E & Hsec).
  destruct (load_module_malformed_registry env bad (r ++ sections)%list Hmal)
    as (e & r' & Ebad & Hr').
  rewrite for_each_app, E. simpl. rewrite (bind_raise _ _ _ _ _ Ebad).
  exists e, sections. destruct Hr' as [-> | [s ->]].
  - exists []. rewrite app_nil_r. auto.
  - exists [s]. rewrite <- app_assoc. auto.
Qed.

(** *** Counting the defaults files of a tree *)

Lemma fstree_induction (P : fstree -> Prop) :
  (forall name files subdirs, Forall P subdirs -> P (Dir name files subdirs)) ->
  forall t, P t.
Proof.
  intros Hdir. fix IH 1. intros [name files subdirs]. apply Hdir.
  induction subdirs as [|d subdirs IHs]; constructor; [apply IH | apply IHs].
Qed.

Lemma walk_counts (f : string -> string -> string * string * string) (t : fstree) :
  forall top,
    length (flat_map (fun entry : string * list string * list string =>
                let '(dirpath, _, filenames) := entry in
                map (f dirpath) (defaults_in filenames)) (walk top t))
    = count_defaults_files t.
Proof.
  induction t as [name files subdirs IH] using fstree_induction. intros top.
  simpl. rewrite length_app, length_map. f_equal.
  induction IH as [|d subdirs Hd _ IHs]; simpl; [reflexivity|].
  rewrite flat_map_app, length_app, Hd. f_equal. apply IHs.
Qed.

Lemma discovered_count (env : environment) :
  length (discovered env) = count_defaults_files (tree env).
Proof.
  unfold discovered.
  apply (walk_counts (fun dirpath filename =>
           (filename, import_path_of env dirpath, plugin_type_of env dirpath))).
Qed.

(** *** Sections that a call does not name stay as they are *)

Lemma add_section_other (title info t : string) (r : registry) :
  t <> title -> assoc t (add_section title info r).2 = assoc t r.
Proof.
  intros Hne. unfold add_section. destruct (assoc title r); [reflexivity|]. simpl.
  rewrite assoc_app. destruct (assoc t r); [reflexivity|]. simpl.
  destruct (String.eqb_spec t title); [congruence | reflexivity].
Qed.

Lemma add_section_present (title info : string) (r : registry) :
  assoc title (add_section title info r).2 <> None.
Proof.
  unfold add_section. destruct (assoc title r) eqn:E; simpl; [congruence|].
  rewrite assoc_app, E. simpl. now rewrite String.eqb_refl.
Qed.

Lemma add_item_other (sect title t : string) (item : config_item) (r : registry) :
  t <> sect -> assoc t (add_item sect title item r).2 = assoc t r.
Proof.
  intros Hne. unfold add_item. destruct (assoc sect r) as [s|]; [|reflexivity].
  destruct (assoc title (options s)); [reflexivity|].
  destruct (negb (supported (datatype item))); [reflexivity|]. simpl.
  now apply assoc_assoc_set_other.
Qed.

Lemma add_item_present (sect title : string) (item : config_item) (r : registry) :
  assoc sect r <> None -> assoc sect (add_item sect title item r).2 <> None.
Proof.
  intros Hp. unfold add_item. destruct (assoc sect r) as [s|] eqn:E; [|congruence].
  destruct (assoc title (options s)); [simpl; congruence|].
  destruct (negb (supported (datatype item))); [simpl; congruence|]. simpl.
  rewrite assoc_assoc_set_same; congruence.
Qed.

Lemma touches_only_bind {A B : Type} (title : string) (m : M A) (f : A -> M B) :
  touches_only title m -> (forall a, touches_only title (f a)) ->
  touches_only title (x ← m; f x).
Proof.
  intros Hm Hf r. destruct (Hm r) as [Ho Hp]. unfold mbind, M_bind.
  destruct (m r) as [[a|e] r1]; simpl in *; [|split; assumption].
  destruct (Hf a r1) as [Ho' Hp']. split.
  - intros t Ht. rewrite Ho', Ho by assumption. reflexivity.
  - intros Hr. apply Hp', Hp, Hr.
Qed.

Lemma touches_only_pure {A : Type} (title : string) (o : outcome A) :
  touches_only title (fun r => (o, r)).
Proof. intros r. simpl. split; auto. Qed.

Lemma touches_only_for_each {A : Type} (title : string) (l : list A) (body : A -> M unit) :
  (forall x, touches_only title (body x)) -> touches_only title (for_each l body).
Proof.
  intros Hb. induction l as [|x l IH]; simpl.
  - apply (touches_only_pure title (Ok tt)).
  - apply touches_only_bind; [apply Hb | intros _; apply IH].
Qed.

Lemma touches_only_load (env : environment) (call : string * string * string) :
  touches_only (section_title call) (load env call).
Proof.
  destruct call as [[filename module_path] plugin_type]. simpl. unfold load_module.
  apply touches_only_bind.
  { unfold import_module. destruct (modules env !! _); apply touches_only_pure. }
  intros m. apply touches_only_bind.
  { unfold getattr. destruct (mod_HELPTEXT m); apply touches_only_pure. }
  intros h. apply touches_only_bind.
  { intros r. split; [intros t Ht; now apply add_section_other|].
    intros _. apply add_section_present. }
  intros _. apply touches_only_bind.
  { unfold getattr. destruct (mod_DEFAULTS m); apply touches_only_pure. }
  intros items. apply touches_only_for_each. intros [k it] r. split.
  - intros t Ht. now apply add_item_other.
  - apply add_item_present.
Qed.

Lemma dotted_is_not_global (a b : string) : a ++ "." ++ b <> "global".
Proof.
  intros Heq. assert (Hc : contains "." (a ++ "." ++ b) = true).
  { clear Heq. induction a as [|c a IH]; simpl; [reflexivity|].
    rewrite IH. apply orb_true_r. }
  rewrite Heq in Hc. discriminate Hc.
Qed.

Lemma section_title_not_global (call : string * string * string) :
  section_title call <> "global".
Proof. destruct call as [[f mp] pt]. apply dotted_is_not_global. Qed.

(** The calls leave the global section as it is. *)
Lemma calls_keep_global (env : environment) (calls : list (string * string * string))
    (r : registry) :
  assoc "global" (for_each calls (load env) r).2 = assoc "global" r.
Proof.
  revert r. induction calls as [|c calls IH]; intros r; simpl; [reflexivity|].
  destruct (touches_only_load env c r) as [Ho _].
  specialize (Ho "global" (fun H => section_title_not_global c (eq_sym H))).
  unfold mbind, M_bind. destruct (load env c r) as [[[]|e] r1]; simpl in *.
  - now rewrite IH.
  - assumption.
Qed.

(** *** [set_globals] *)

Lemma set_globals_spec (env : environment) (r : registry) :
  assoc "global" r = None ->
  exists opts,
    set_globals env r =
    (Ok tt,
     (r ++ [("global",
             {| helptext := "Options that apply to all models" ++ ADDITIONAL_INFO;
                options := opts |})])%list)
    /\ map summary opts =
       [("icnr_init", Tbool, VBool false, None, None, None, None);
        ("conv_aware_init", Tbool, VBool false, None, None, None, None);
        ("subpixel_upscaling", Tbool, VBool false, None, None, None, None);
        ("reflect_padding", Tbool, VBool false, None, None, None, None);
        ("penalized_mask_loss", Tbool, VBool true, None, None, None, None);
        ("image_loss_function", Tstr, VStr "Mean_Absolute_Error", None, None, None,
         Some ["Mean_Absolute_Error"; "Mean_Squared_Error"; "LogCosh"; "Smooth_L1";
               "L_inf_norm"; "SSIM"; "GMSD"; "Pixel_Gradient_Difference"]);
        ("mask_type", Tstr, VStr "none", None, None, None,
         Some (get_available_masks env));
        ("learning_rate", Tfloat, VFloat 5e-5, Some (1e-6, 1e-4)%Q, Some 6%Z,
         Some false, None);
        ("coverage", Tfloat, VFloat 68.75, Some (62.5, 100.0)%Q, None,
         Some true, None)].
Proof.
  intros Hfresh. unfold set_globals.
  erewrite bind_ok by (apply add_section_fresh; exact Hfresh).
  do 8 (erewrite bind_ok by (apply add_item_last; [exact Hfresh | reflexivity | reflexivity])).
  eexists. split.
  - apply add_item_last; [exact Hfresh | reflexivity | reflexivity].
  - reflexivity.
Qed.

(** *** [str.replace] and [os.path.splitext] *)

Lemma prefix_first_char (a b : ascii) (s1 s2 : string) :
  a <> b -> String.prefix (String a s1) (String b s2) = false.
Proof. intros Hne. simpl. destruct (ascii_dec a b); [contradiction | reflexivity]. Qed.

Lemma replace_from_miss (old new : string) (c : ascii) (s : string) :
  String.prefix old (String c s) = false ->
  replace_from old new 0 (String c s) = String c (replace_from old new 0 s).
Proof. intros Hp. cbn [replace_from]. now rewrite Hp. Qed.

Lemma replace_defaults_segment (a rest : string) :
  contains "_" a = false ->
  replace (a ++ rest) "_defaults" "" = a ++ replace rest "_defaults" "".
Proof.
  unfold replace. induction a as [|c a IH]; intros Hfree; [reflexivity|].
  cbn [contains] in Hfree. apply orb_false_iff in Hfree. destruct Hfree as [Hc Hfree].
  apply Ascii.eqb_neq in Hc.
  change (String c a ++ rest) with (String c (a ++ rest)).
  rewrite replace_from_miss.
  - rewrite IH by assumption. reflexivity.
  - apply prefix_first_char. congruence.
Qed.

Lemma prefix_append (a rest : string) : String.prefix a (a ++ rest) = true.
Proof.
  induction a as [|c a IH]; [now destruct rest|].
  simpl. destruct (ascii_dec c c); [exact IH | contradiction].
Qed.

Lemma replace_defaults_occurrence (rest : string) :
  replace ("_defaults" ++ rest) "_defaults" "" = replace rest "_defaults" "".
Proof.
  unfold replace.
  change ("_defaults" ++ rest) with (String "_" ("defaults" ++ rest)).
  cbn [replace_from].
  change (String "_" ("defaults" ++ rest)) with ("_defaults" ++ rest).
  rewrite prefix_append. reflexivity.
Qed.

Lemma replace_defaults_free (a : string) :
  contains "_" a = false -> replace a "_defaults" "" = a.
Proof.
  unfold replace. induction a as [|c a IH]; intros Hfree; [reflexivity|].
  cbn [contains] in Hfree. apply orb_false_iff in Hfree. destruct Hfree as [Hc Hfree].
  apply Ascii.eqb_neq in Hc. rewrite replace_from_miss.
  - now rewrite IH.
  - apply prefix_first_char. congruence.
Qed.

Lemma rfind_from_append (c : ascii) (s t : string) (i : nat) :
  rfind_from c i (s ++ t) =
  match rfind_from c (i + String.length s) t with
  | Some j => Some j
  | None => rfind_from c i s
  end.
Proof.
  revert i. induction s as [|d s IH]; intros i.
  - change ("" ++ t) with t. simpl. rewrite Nat.add_0_r.
    now destruct (rfind_from c i t).
  - change (String d s ++ t) with (String d (s ++ t)). cbn [rfind_from String.length].
    rewrite IH. replace (S i + String.length s)%nat with (i + S (String.length s))%nat by lia.
    now destruct (rfind_from c (i + S (String.length s)) t).
Qed.

Lemma rfind_from_absent (c : ascii) (s : string) (i : nat) :
  contains c s = false -> rfind_from c i s = None.
Proof.
  revert i. induction s as [|d s IH]; intros i Hc; [reflexivity|].
  cbn [contains] in Hc. apply orb_false_iff in Hc. destruct Hc as [Hd Hs].
  cbn [rfind_from]. now rewrite IH, Hd.
Qed.

Lemma substring_prefix (s t : string) :
  substring 0 (String.length s) (s ++ t) = s.
Proof.
  induction s as [|d s IH]; [now destruct t|].
  change (String d s ++ t) with (String d (s ++ t)). cbn [String.length substring].
  now rewrite IH.
Qed.

Lemma substring_suffix (s t : string) (n : nat) :
  substring (String.length s) n (s ++ t) = substring 0 n t.
Proof.
  induction s as [|d s IH]; [reflexivity|].
  change (String d s ++ t) with (String d (s ++ t)). cbn [String.length substring].
  exact IH.
Qed.

Lemma length_append (s t : string) :
  String.length (s ++ t) = (String.length s + String.length t)%nat.
Proof.
  induction s as [|d s IH]; [reflexivity|].
  change (String d s ++ t) with (String d (s ++ t)). cbn [String.length]. now rewrite IH.
Qed.

(** The base name of a Python file in a directory listing. *)
Lemma splitext_py (s : string) :
  contains "/" s = false -> has_other_char "." s = true ->
  splitext (s ++ ".py") = (s, ".py").
Proof.
  intros Hsep Hdot. unfold splitext, rfind.
  rewrite (rfind_from_append "/"), (rfind_from_absent "/" s) by assumption.
  rewrite (rfind_from_append "."). simpl.
  rewrite Nat.sub_0_r, substring_prefix, Hdot, substring_suffix, length_append.
  replace (String.length s + String.length ".py" - String.length s)%nat with 3%nat
    by (simpl; lia).
  reflexivity.
Qed.

Lemma contains_append (c : ascii) (s t : string) :
  contains c (s ++ t) = contains c s || contains c t.
Proof.
  induction s as [|d s IH]; [reflexivity|].
  change (String d s ++ t) with (String d (s ++ t)). cbn [contains].
  now rewrite IH, orb_assoc.
Qed.

Lemma has_other_char_append (c : ascii) (s t : string) :
  has_other_char c (s ++ t) = has_other_char c s || has_other_char c t.
Proof.
  induction s as [|d s IH]; [reflexivity|].
  change (String d s ++ t) with (String d (s ++ t)). cbn [has_other_char].
  now rewrite IH, orb_assoc.
Qed.

Lemma append_assoc (s t u : string) : (s ++ t) ++ u = s ++ (t ++ u).
Proof.
  induction s as [|d s IH]; [reflexivity|].
  change ((String d s ++ t) ++ u) with (String d ((s ++ t) ++ u)). now rewrite IH.
Qed.

Lemma append_empty (s : string) : s ++ "" = s.
Proof.
  induction s as [|d s IH]; [reflexivity|].
  change (String d s ++ "") with (String d (s ++ "")). now rewrite IH.
Qed.

(** The usual case: "<name>_defaults.py" gives "<plugin_type>.<name>". *)
Lemma section_title_plain (name module_path plugin_type : string) :
  contains "/" name = false -> contains "_" name = false ->
  section_title (name ++ "_defaults.py", module_path, plugin_type)
  = plugin_type ++ "." ++ name.
Proof.
  intros Hsep Hfree. unfold section_title.
  replace (name ++ "_defaults.py") with ((name ++ "_defaults") ++ ".py")
    by (rewrite append_assoc; reflexivity).
  rewrite splitext_py.
  - cbn [fst]. rewrite replace_defaults_segment by assumption.
    change "_defaults" with ("_defaults" ++ "") at 1.
    rewrite replace_defaults_occurrence. change (replace "" "_defaults" "") with "".
    now rewrite append_empty.
  - rewrite contains_append, Hsep. reflexivity.
  - rewrite has_other_char_append. apply orb_true_r.
Qed.

(** C4.  [set_globals] registers the section "global" and in it exactly
    the nine options of the documentation, with their datatypes, defaults,
    choices, bounds, rounding and fixed flags, and leaves the sections
    that exist alone. *)
Theorem set_globals_registers_nine_options (env : environment) (r : registry) :
  assoc "global" r = None ->
  exists opts,
    set_globals env r =
    (Ok tt,
     (r ++ [("global",
             {| helptext := "Options that apply to all models" ++ ADDITIONAL_INFO;
                options := opts |})])%list)
    /\ map summary opts =
       [("icnr_init", Tbool, VBool false, None, None, None, None);
        ("conv_aware_init", Tbool, VBool false, None, None, None, None);
        ("subpixel_upscaling", Tbool, VBool false, None, None, None, None);
        ("reflect_padding", Tbool, VBool false, None, None, None, None);
        ("penalized_mask_loss", Tbool, VBool true, None, None, None, None);
        ("image_loss_function", Tstr, VStr "Mean_Absolute_Error", None, None, None,
         Some ["Mean_Absolute_Error"; "Mean_Squared_Error"; "LogCosh"; "Smooth_L1";
               "L_inf_norm"; "SSIM"; "GMSD"; "Pixel_Gradient_Difference"]);
        ("mask_type", Tstr, VStr "none", None, None, None,
         Some (get_available_masks env));
        ("learning_rate", Tfloat, VFloat 5e-5, Some (1e-6, 1e-4)%Q, Some 6%Z,
         Some false, None);
        ("coverage", Tfloat, VFloat 68.75, Some (62.5, 100.0)%Q, None,
         Some true, None)].
Proof. apply set_globals_spec. Qed.

Lemma set_globals_registers_nine_options_witness :
  exists opts,
    set_globals two_plugins [] =
    (Ok tt,
     ([] ++ [("global",
              {| helptext := "Options that apply to all models" ++ ADDITIONAL_INFO;
                 options := opts |})])%list)
    /\ map summary opts =
       [("icnr_init", Tbool, VBool false, None, None, None, None);
        ("conv_aware_init", Tbool, VBool false, None, None, None, None);
        ("subpixel_upscaling", Tbool, VBool false, None, None, None, None);
        ("reflect_padding", Tbool, VBool false, None, None, None, None);
        ("penalized_mask_loss", Tbool, VBool true, None, None, None, None);
        ("image_loss_function", Tstr, VStr "Mean_Absolute_Error", None, None, None,
         Some ["Mean_Absolute_Error"; "Mean_Squared_Error"; "LogCosh"; "Smooth_L1";
               "L_inf_norm"; "SSIM"; "GMSD"; "Pixel_Gradient_Difference"]);
        ("mask_type", Tstr, VStr "none", None, None, None,
         Some (get_available_masks two_plugins));
        ("learning_rate", Tfloat, VFloat 5e-5, Some (1e-6, 1e-4)%Q, Some 6%Z,
         Some false, None);
        ("coverage", Tfloat, VFloat 68.75, Some (62.5, 100.0)%Q, None,
         Some true, None)].
Proof.
  apply (set_globals_registers_nine_options two_plugins []). reflexivity.
Defined.

Lemma set_globals_ok (env : environment) (r : registry) :
  assoc "global" r = None ->
  exists g, set_globals env r = (Ok tt, (r ++ [("global", g)])%list).
Proof.
  intros Hfresh. destruct (set_globals_spec env r Hfresh) as (opts & E & _). eauto.
Qed.

(** What discovery meets are the defaults files of the walk, each with
    the import path and the plugin type of its directory. *)
Lemma discovered_spec (env : environment) (filename module_path plugin_type : string) :
  In (filename, module_path, plugin_type) (discovered env) <->
  exists dirpath dirnames filenames,
    In (dirpath, dirnames, filenames) (walk (current_dir env) (tree env))
    /\ In filename filenames /\ endswith filename "_defaults.py" = true
    /\ module_path = import_path_of env dirpath
    /\ plugin_type = plugin_type_of env dirpath.
Proof.
  unfold discovered. rewrite in_flat_map. split.
  - intros ([[dirpath dirnames] filenames] & Hin & Hmap).
    apply in_map_iff in Hmap. destruct Hmap as (f & Heq & Hf).
    injection Heq as -> <- <-. unfold defaults_in in Hf.
    apply list_elem_of_In, list_elem_of_filter in Hf. destruct Hf as [Hend Hf].
    exists dirpath, dirnames, filenames. repeat split; try assumption.
    + now apply list_elem_of_In.
    + now apply Is_true_true.
  - intros (dirpath & dirnames & filenames & Hin & Hf & Hend & -> & ->).
    exists (dirpath, dirnames, filenames). split; [assumption|].
    apply in_map_iff. exists filename. split; [reflexivity|].
    unfold defaults_in. apply list_elem_of_In, list_elem_of_filter. split.
    + now apply Is_true_true.
    + now apply list_elem_of_In.
Qed.

(** C5 (as amended).  Discovery over a plugin tree whose N defaults
    files are well formed and have N different section titles creates N
    sections after the global one, one per file in the order of the walk:
    the section of a file is titled "<plugin_type>.<module_name>", holds
    the help text of the module, with the addendum if and only if the
    module path ends in "model", and the options of the module. *)
Theorem discovery_creates_one_section_per_file (env : environment) :
  Forall (well_formed env) (discovered env) ->
  NoDup (map section_title (discovered env)) ->
  exists g sections,
    set_defaults env [] = (Ok tt, ("global", g) :: sections)
    /\ length sections = count_defaults_files (tree env)
    /\ Forall2 (section_for env) (discovered env) sections.
Proof.
  intros Hwf Hnd. rewrite set_defaults_calls.
  destruct (set_globals_ok env []) as (g & Eg); [reflexivity|].
  rewrite (bind_ok _ _ _ _ tt Eg). simpl.
  destruct (well_formed_calls_load env (discovered env) [("global", g)] Hwf Hnd)
    as (sections & E & Hsec).
  - intros c _. simpl.
    destruct (String.eqb_spec (section_title c) "global") as [Heq|_]; [|reflexivity].
    now apply section_title_not_global in Heq.
  - exists g, sections. split; [exact E|]. split; [|exact Hsec].
    rewrite <- discovered_count. symmetry. apply (Forall2_length _ _ _ Hsec).
Qed.

Ltac solve_well_formed :=
  eexists _, _, _; split; [vm_compute; reflexivity|];
  split; [reflexivity|]; split; [reflexivity|];
  split; [refine (bool_decide_unpack _ _); vm_compute; exact I | repeat constructor].

Lemma two_plugins_discovered :
  discovered two_plugins =
  [("dfl_h128_defaults.py", "plugins.train.model", "model");
   ("original_defaults.py", "plugins.train.trainer", "trainer")].
Proof. vm_compute. reflexivity. Qed.

Lemma discovery_creates_one_section_per_file_witness :
  exists g sections,
    set_defaults two_plugins [] = (Ok tt, ("global", g) :: sections)
    /\ length sections = count_defaults_files (tree two_plugins)
    /\ Forall2 (section_for two_plugins) (discovered two_plugins) sections.
Proof.
  apply discovery_creates_one_section_per_file.
  - rewrite two_plugins_discovered.
    constructor; [solve_well_formed|]. constructor; [solve_well_formed|]. constructor.
  - rewrite two_plugins_discovered. refine (bool_decide_unpack _ _). vm_compute. exact I.
Defined.

(** The sections of the sample tree: the model section carries the
    addendum, the trainer section does not. *)
Example two_plugins_sections :
  map (fun ts => (fst ts, helptext (snd ts), map fst (options (snd ts))))
      (tail (set_defaults two_plugins []).2)
  = [("model.dfl_h128", "A model." ++ ADDITIONAL_INFO, ["lowmem"]);
     ("trainer.original", "A trainer.", [])].
Proof. vm_compute. reflexivity. Qed.

Lemma clashing_plugins_discovered :
  discovered clashing_plugins =
  [("a_defaults.py", "plugins.train.model", "model");
   ("a_defaults_defaults.py", "plugins.train.model", "model")].
Proof. vm_compute. reflexivity. Qed.

(** C5 as stated fails: the two defaults files of [clashing_plugins] are
    well formed, and discovery leaves one section after the global one. *)
Lemma discovery_of_clashing_titles :
  ~ (Forall (well_formed clashing_plugins) (discovered clashing_plugins) ->
     length (set_defaults clashing_plugins []).2
     = (1 + count_defaults_files (tree clashing_plugins))%nat).
Proof.
  intros Hclaim.
  assert (Hlen : length (set_defaults clashing_plugins []).2 = 2%nat)
    by (vm_compute; reflexivity).
  rewrite Hlen in Hclaim.
  assert (Hcount : count_defaults_files (tree clashing_plugins) = 2%nat)
    by (vm_compute; reflexivity).
  rewrite Hcount in Hclaim.
  enough (2 = 1 + 2)%nat by lia. apply Hclaim.
  rewrite clashing_plugins_discovered.
  constructor; [solve_well_formed|]. constructor; [solve_well_formed|]. constructor.
Qed.

(** C6 (as amended).  If a defaults module that discovery meets is
    malformed (it does not load, or lacks the help text, or lacks the
    option mapping), [set_defaults] raises, whatever the registry it
    started from.  The registry is not rolled back: started from the empty
    registry, the failed pass leaves in it the global section and the
    sections of the modules that were loaded before the malformed one. *)
Theorem malformed_module_aborts_discovery (env : environment) :
  (exists call, In call (discovered env) /\ malformed env call) ->
  (forall r, exists e r', set_defaults env r = (Raise e, r'))
  /\ (exists e r' g,
        set_defaults env [] = (Raise e, r') /\ assoc "global" r' = Some g)
  /\ (forall before bad after,
        discovered env = (before ++ bad :: after)%list ->
        Forall (well_formed env) before ->
        NoDup (map section_title before) ->
        malformed env bad ->
        exists e g sections rest,
          set_defaults env [] = (Raise e, ("global", g) :: sections ++ rest)
          /\ Forall2 (section_for env) before sections).
Proof.
  intros (call & Hin & Hmal).
  assert (Hraise : forall r, exists e r', set_defaults env r = (Raise e, r')).
  { intros r. rewrite set_defaults_calls. unfold mbind, M_bind.
    destruct (set_globals env r) as [[[]|e] r1]; [|eauto].
    apply (for_each_raises _ _ call); [assumption|].
    intros r2. destruct (load_module_malformed_registry env call r2 Hmal)
      as (e & r' & E & _). eauto. }
  destruct (set_globals_ok env []) as (g & Eg); [reflexivity|].
  split; [exact Hraise|]. split.
  - destruct (Hraise []) as (e & r' & E). exists e, r', g. split; [exact E|].
    rewrite set_defaults_calls, (bind_ok _ _ _ _ tt Eg) in E. simpl in E.
    pose proof (calls_keep_global env (discovered env) [("global", g)]) as Hkeep.
    rewrite E in Hkeep. simpl in Hkeep. exact Hkeep.
  - intros before bad after Hdisc Hwf Hnd Hbad.
    rewrite set_defaults_calls, (bind_ok _ _ _ _ tt Eg), Hdisc. simpl app.
    destruct (sections_before_failure env before after bad [("global", g)] Hwf Hnd)
      as (e & sections & rest & E & Hsec); [|assumption|].
    + intros c _. simpl.
      destruct (String.eqb_spec (section_title c) "global") as [Heq|_]; [|reflexivity].
      now apply section_title_not_global in Heq.
    + exists e, g, sections, rest. split; [exact E | exact Hsec].
Qed.

Lemma broken_plugins_discovered :
  discovered broken_plugins =
  [("a_defaults.py", "plugins.train.model", "model");
   ("b_defaults.py", "plugins.train.model", "model")].
Proof. vm_compute. reflexivity. Qed.

Lemma malformed_module_aborts_discovery_witness :
  (forall r, exists e r', set_defaults broken_plugins r = (Raise e, r'))
  /\ (exists e r' g,
        set_defaults broken_plugins [] = (Raise e, r') /\ assoc "global" r' = Some g)
  /\ (forall before bad after,
        discovered broken_plugins = (before ++ bad :: after)%list ->
        Forall (well_formed broken_plugins) before ->
        NoDup (map section_title before) ->
        malformed broken_plugins bad ->
        exists e g sections rest,
          set_defaults broken_plugins []
          = (Raise e, ("global", g) :: sections ++ rest)
          /\ Forall2 (section_for broken_plugins) before sections).
Proof.
  apply malformed_module_aborts_discovery.
  exists ("b_defaults.py", "plugins.train.model", "model"). split.
  - rewrite broken_plugins_discovered. right. left. reflexivity.
  - vm_compute. right. reflexivity.
Defined.

(** C6 as stated fails: the failed pass over [broken_plugins] leaves the
    section of the first defaults file in the registry. *)
Lemma failed_discovery_leaves_sections :
  ~ (forall e r',
       set_defaults broken_plugins [] = (Raise e, r') ->
       forall call, In call (discovered broken_plugins) ->
         assoc (section_title call) r' = None).
Proof.
  intros Hclaim.
  specialize (Hclaim AttributeError (set_defaults broken_plugins []).2).
  assert (E : set_defaults broken_plugins []
              = (Raise AttributeError, (set_defaults broken_plugins []).2))
    by (vm_compute; reflexivity).
  specialize (Hclaim E ("a_defaults.py", "plugins.train.model", "model")).
  rewrite broken_plugins_discovered in Hclaim.
  specialize (Hclaim (or_introl eq_refl)).
  vm_compute in Hclaim. discriminate Hclaim.
Qed.

(** What the failed pass leaves behind: the global section, the section
    of the module that loaded, and the empty section of the module
    without options. *)
Example broken_plugins_registry :
  map (fun ts => (fst ts, map fst (options (snd ts)))) (set_defaults broken_plugins []).2
  = [("global",
      ["icnr_init"; "conv_aware_init"; "subpixel_upscaling"; "reflect_padding";
       "penalized_mask_loss"; "image_loss_function"; "mask_type"; "learning_rate";
       "coverage"]);
     ("model.a", ["lowmem"]);
     ("model.b", [])].
Proof. vm_compute. reflexivity. Qed.

(** C10.  The one section that [load_module] creates or extends is titled
    by the plugin type, a dot, and the base name of the file from which
    [str.replace] has removed "_defaults"; and [str.replace] removes the
    occurrences wherever they are, not the trailing one only. *)
Theorem load_module_section_title
    (env : environment) (filename module_path plugin_type : string)
    (m : defaults_module) (h : string) (r : registry) :
  modules env !! (module_path ++ "." ++ fst (splitext filename)) = Some m ->
  mod_HELPTEXT m = Some h ->
  let title :=
    plugin_type ++ "." ++ replace (fst (splitext filename)) "_defaults" "" in
  let r' := (load_module env filename module_path plugin_type r).2 in
  assoc title r' <> None
  /\ (forall t, t <> title -> assoc t r' = assoc t r)
  /\ (forall a rest, contains "_" a = false ->
        replace (a ++ "_defaults" ++ rest) "_defaults" ""
        = a ++ replace rest "_defaults" "").
Proof.
  intros Hm Hh title r'. split; [|split].
  - subst r'. unfold load_module, import_module. rewrite Hm.
    erewrite bind_ok by reflexivity. rewrite Hh.
    erewrite bind_ok by reflexivity.
    set (info := h ++ (if endswith module_path "model" then ADDITIONAL_INFO else "")).
    change (join "." [plugin_type; replace (splitext filename).1 "_defaults" ""])
      with title.
    pose proof (add_section_present title info r) as Hsec.
    unfold mbind at 1, M_bind at 1.
    destruct (add_section title info r) as [[[]|e] r1]; simpl in *; [|exact Hsec].
    assert (Hrest : touches_only title
              (defaults ← getattr (mod_DEFAULTS m);
               for_each defaults (fun kv => add_item title kv.1 kv.2))).
    { apply touches_only_bind.
      - unfold getattr. destruct (mod_DEFAULTS m); apply touches_only_pure.
      - intros items. apply touches_only_for_each. intros [k it] r2. split.
        + intros t Ht. now apply add_item_other.
        + apply add_item_present. }
    apply (Hrest r1), Hsec.
  - intros t Ht. subst r'.
    apply (touches_only_load env (filename, module_path, plugin_type) r). exact Ht.
  - intros a rest Hfree. rewrite replace_defaults_segment by assumption.
    now rewrite replace_defaults_occurrence.
Qed.

Lemma load_module_section_title_witness :
  assoc "model.a_b"
        (load_module
           (sample_env {["plugins.train.model.a_defaults_b_defaults" := good_module]}
                       (Dir "train" [] []))
           "a_defaults_b_defaults.py" "plugins.train.model" "model" []).2
  <> None.
Proof.
  apply (load_module_section_title
           (sample_env {["plugins.train.model.a_defaults_b_defaults" := good_module]}
                       (Dir "train" [] []))
           "a_defaults_b_defaults.py" "plugins.train.model" "model"
           good_module "A model." []).
  - vm_compute. reflexivity.
  - reflexivity.
Defined.

(** An interior "_defaults" goes as well as the trailing one. *)
Example interior_defaults_removed :
  replace (fst (splitext "a_defaults_b_defaults.py")) "_defaults" "" = "a_b".
Proof. reflexivity. Qed.

End TrainConfigFacts.

(** ** The DFL-H128 model *)

Module DflH128Facts.
Import Py DflH128.

(** *** The decoder *)

(** C2.  [decoder] returns, for every configuration, a model with one
    output, the image, when the option [mask_type] is empty (missing,
    [None] or the empty string), and with two outputs, the image and a
    mask of one channel, when it is not.  Without [mask_type] no layer of
    the graph produces a mask. *)
Theorem decoder_outputs (self : model) :
  let mask_type := dict_get (config self) "mask_type" VNone in
  exists m face,
    decoder self = Ok m
    /\ t_shape face = [128; 128; 3]%Z
    /\ (truthy mask_type = false ->
          outputs m = [face] /\ existsb is_mask_layer (all_layers m) = false)
    /\ (truthy mask_type = true ->
          exists mask, outputs m = [face; mask] /\ t_shape mask = [128; 128; 1]%Z
                       /\ existsb is_mask_layer (layers_of mask) = true)
    /\ (config self !! "mask_type" = None \/ config self !! "mask_type" = Some VNone
        \/ config self !! "mask_type" = Some (VStr "") -> length (outputs m) = 1%nat)
    /\ (forall s, s <> "" -> config self !! "mask_type" = Some (VStr s) ->
          length (outputs m) = 2%nat).
Proof.
  intros mask_type.
  set (face := {| t_shape := [128; 128; 3]%Z;
                  t_history := [Layer (Upscale (encoder_dim self));
                                Layer (Upscale (encoder_dim self / 2));
                                Layer (Upscale (encoder_dim self / 4));
                                Layer (Conv2D 3 5 "same" "sigmoid")] |}).
  unfold decoder. fold mask_type.
  destruct (truthy mask_type) eqn:Ht.
  - eexists _, face. split; [reflexivity|]. split; [reflexivity|].
    split; [discriminate|]. split.
    + intros _. eexists. split; [reflexivity|]. split; reflexivity.
    + split; [|reflexivity].
      subst mask_type. unfold dict_get in Ht.
      intros [E|[E|E]]; rewrite E in Ht; discriminate Ht.
  - eexists _, face. split; [reflexivity|]. split; [reflexivity|].
    split; [intros _; split; reflexivity|]. split; [discriminate|].
    split; [reflexivity|].
    intros s Hs E. subst mask_type. unfold dict_get in Ht. rewrite E in Ht.
    simpl in Ht. apply negb_false_iff, String.eqb_eq in Ht. contradiction.
Qed.

(** The HEAD side of the merge gives two outputs whatever the option. *)
Remark decoder_HEAD_outputs (self : model) :
  exists m, decoder_HEAD self = Ok m /\ length (outputs m) = 2%nat.
Proof. eexists. split; reflexivity. Qed.

(** *** The schedules of encoder and decoder *)

Lemma init_cases (cfg : gmap string pyval) (self : model) :
  init cfg = Ok self ->
  input_shape self = [128; 128; 3]%Z /\ config self = cfg
  /\ exists lowmem, cfg !! "lowmem" = Some lowmem
       /\ encoder_dim self = (if truthy lowmem then 256 else 512)%Z.
Proof.
  unfold init, init_kwargs, getitem.
  destruct (cfg !! "lowmem") as [lowmem|]; simpl; [|discriminate].
  intros E. injection E as <-. simpl. eauto.
Qed.

(** C7 (as amended).  In a model built from a configuration the encoder
    has four downsampling stages of 128, 256, 512 and 1024 channels, the
    same for every configuration, and then one upsampling stage of
    [encoder_dim] channels; the decoder has three upsampling stages of
    [encoder_dim], [encoder_dim // 2] and [encoder_dim // 4] channels,
    where [encoder_dim] is 256 in low-memory mode and 512 otherwise.  So
    the decoder's stages do not mirror the encoder's; what agrees is the
    geometry: the encoder's output has the shape of the decoder's input,
    the upsampling stages of both are as many as the downsampling stages,
    and the decoder's image has the input shape.  Both graphs are built
    without error. *)
Theorem encoder_decoder_schedules (cfg : gmap string pyval) (self : model) :
  init cfg = Ok self ->
  exists lowmem enc dec latent face,
    cfg !! "lowmem" = Some lowmem
    /\ encoder_dim self = (if truthy lowmem then 256 else 512)%Z
    /\ encoder self = Ok enc /\ decoder self = Ok dec
    /\ (encoder_dim self = 256%Z \/ encoder_dim self = 512%Z)
    /\ downsampling_schedule enc = [128; 256; 512; 1024]%Z
    /\ upsampling_schedule enc = [encoder_dim self]
    /\ upsampling_schedule dec =
       [encoder_dim self; (encoder_dim self / 2)%Z; (encoder_dim self / 4)%Z]
    /\ length (upsampling_schedule enc ++ upsampling_schedule dec)%list
       = length (downsampling_schedule enc)
    /\ outputs enc = [latent]
    /\ map t_shape (inputs dec) = [t_shape latent]
    /\ t_shape latent = [16; 16; encoder_dim self]%Z
    /\ head (outputs dec) = Some face
    /\ t_shape face = input_shape self.
Proof.
  intros Hinit.
  destruct (init_cases cfg self Hinit) as (Hshape & _ & lowmem & Hlow & Hdim).
  exists lowmem. unfold encoder, decoder. rewrite Hshape, Hdim.
  destruct (truthy (dict_get (config self) "mask_type" VNone));
    destruct (truthy lowmem); eexists _, _, _, _;
    (split; [exact Hlow|]);
    repeat (split; [first [reflexivity | left; reflexivity | right; reflexivity]|]);
    reflexivity.
Qed.

Lemma encoder_decoder_schedules_witness :
  exists lowmem enc dec latent face,
    default_config !! "lowmem" = Some lowmem
    /\ encoder_dim default_model = (if truthy lowmem then 256 else 512)%Z
    /\ encoder default_model = Ok enc /\ decoder default_model = Ok dec
    /\ (encoder_dim default_model = 256%Z \/ encoder_dim default_model = 512%Z)
    /\ downsampling_schedule enc = [128; 256; 512; 1024]%Z
    /\ upsampling_schedule enc = [encoder_dim default_model]
    /\ upsampling_schedule dec =
       [encoder_dim default_model; (encoder_dim default_model / 2)%Z;
        (encoder_dim default_model / 4)%Z]
    /\ length (upsampling_schedule enc ++ upsampling_schedule dec)%list
       = length (downsampling_schedule enc)
    /\ outputs enc = [latent]
    /\ map t_shape (inputs dec) = [t_shape latent]
    /\ t_shape latent = [16; 16; encoder_dim default_model]%Z
    /\ head (outputs dec) = Some face
    /\ t_shape face = input_shape default_model.
Proof.
  apply (encoder_decoder_schedules default_config). reflexivity.
Defined.

(** C7 as stated fails: for the default configuration the decoder has
    three upsampling stages of 512, 256 and 128 channels, the encoder four
    downsampling stages of 128, 256, 512 and 1024 channels. *)
Lemma decoder_does_not_mirror_encoder :
  ~ (forall self enc dec,
       init default_config = Ok self -> encoder self = Ok enc ->
       decoder self = Ok dec -> mirrors enc dec).
Proof.
  intros Hclaim.
  specialize (Hclaim default_model _ _ eq_refl eq_refl eq_refl).
  unfold mirrors in Hclaim. vm_compute in Hclaim. discriminate Hclaim.
Qed.

(** The HEAD side of the merge has the decoder's stages as well. *)
Remark decoder_HEAD_schedule (self : model) :
  exists dec, decoder_HEAD self = Ok dec
    /\ upsampling_schedule dec =
       [encoder_dim self; (encoder_dim self / 2)%Z; (encoder_dim self / 4)%Z].
Proof. eexists. split; reflexivity. Qed.

(** Nor does it in low-memory mode. *)
Example lowmem_schedules :
  (self ← init lowmem_config;
   enc ← encoder self;
   dec ← decoder self;
   Ok (downsampling_schedule enc, upsampling_schedule enc, upsampling_schedule dec))
  = Ok ([128; 256; 512; 1024]%Z, [256%Z], [256; 128; 64]%Z).
Proof. vm_compute. reflexivity. Qed.

(** Shapes are checked while the graph is built: a reshape to another
    number of elements is refused. *)
Example reshape_mismatch :
  apply (Reshape [8; 8; 512]%Z) (Input [100]%Z) = Raise ValueError.
Proof. reflexivity. Qed.

(** *** Composition *)

Lemma St_bind_ok {A B : Type} (m : St A) (f : A -> St B) (st st' : model_state) (a : A) :
  m st = (Ok a, st') -> (x ← m; f x) st = f a st'.
Proof. intros E. unfold mbind, St_bind. now rewrite E. Qed.

Lemma network_ok (name : string) (id : obj_id) (st : model_state) :
  networks st !! name = Some id -> network name st = (Ok id, st).
Proof. intros E. unfold network, getitem. now rewrite E. Qed.

Lemma call_ok (net : obj_id) (m : keras_model) (i x : tensor) (st : model_state) :
  heap st !! net = Some m -> inputs m = [i] -> t_shape i = t_shape x ->
  call net [x] st =
  (Ok (imap (fun k o =>
         {| t_shape := t_shape o;
            t_history := (t_history x ++ [SubNetwork net k])%list |}) (outputs m)),
   st).
Proof.
  intros Hm Hi Hs. unfold call. rewrite Hm, Hi, Hs. unfold same_shape.
  now rewrite bool_decide_eq_true_2.
Qed.

Lemma Forall_imap_history (net : obj_id) (x : tensor) (outs : list tensor)
    (P : tensor -> Prop) :
  (forall k o, P {| t_shape := t_shape o;
                    t_history := (t_history x ++ [SubNetwork net k])%list |}) ->
  Forall P (imap (fun k o =>
              {| t_shape := t_shape o;
                 t_history := (t_history x ++ [SubNetwork net k])%list |}) outs).
Proof.
  intros HP. apply Forall_forall. intros t Ht.
  apply elem_of_lookup_imap in Ht. destruct Ht as (k & o & -> & _). apply HP.
Qed.

(** What [initialize] does on an instance whose networks fit. *)
Lemma initialize_composes (st : model_state) (e da db : obj_id) :
  composable st e da db ->
  exists st' pa pb ga gb,
    initialize st = (Ok tt, st')
    /\ predictors st' !! "a" = Some pa /\ predictors st' !! "b" = Some pb
    /\ heap st' !! pa = Some ga /\ heap st' !! pb = Some gb
    /\ Forall (fun t => subnetworks_of t = [e; da]) (outputs ga)
    /\ Forall (fun t => subnetworks_of t = [e; db]) (outputs gb)
    /\ e ∈ dom (heap st)
    /\ (pa ∉ dom (heap st)) /\ (pb ∉ dom (heap st)) /\ pa <> pb
    /\ dom (heap st') = {[pa; pb]} ∪ dom (heap st)
    /\ heap st' !! e = heap st !! e
    /\ networks st' = networks st.
Proof.
  intros (He & Hda & Hdb & enc & dec_a & dec_b & x & latent & in_a & in_b
          & Henc & Hdec_a & Hdec_b & Hin & Hx & Hout & Hina & Hsa & Hinb & Hsb).
  set (inp := Input (input_shape (self_model st))).
  set (lat := {| t_shape := t_shape latent;
                 t_history := (t_history inp ++ [SubNetwork e 0])%list |}).
  set (out_a := imap (fun k o =>
                  {| t_shape := t_shape o;
                     t_history := (t_history lat ++ [SubNetwork da k])%list |})
                  (outputs dec_a)).
  set (out_b := imap (fun k o =>
                  {| t_shape := t_shape o;
                     t_history := (t_history lat ++ [SubNetwork db k])%list |})
                  (outputs dec_b)).
  set (mask := Input (take 2 (input_shape (self_model st)) ++ [1%Z])%list).
  set (ga := KerasModel [inp; mask] out_a).
  set (gb := KerasModel [inp; mask] out_b).
  set (pa := fresh (dom (heap st))).
  set (heap1 := <[pa := ga]> (heap st)).
  set (pb := fresh (dom heap1)).
  assert (Hpa : pa ∉ dom (heap st)) by apply is_fresh.
  assert (Hpb1 : pb ∉ dom heap1) by apply is_fresh.
  assert (Hpb : (pb ∉ dom (heap st)) /\ pa <> pb).
  { unfold heap1 in Hpb1. rewrite dom_insert_L, elem_of_union, elem_of_singleton in Hpb1.
    split; [tauto | intros Heq; apply Hpb1; left; now symmetry]. }
  destruct Hpb as [Hpb Hne].
  assert (Hedom : e ∈ dom (heap st)) by (apply elem_of_dom; eauto).
  assert (Hdbdom : db ∈ dom (heap st)) by (apply elem_of_dom; eauto).
  assert (Hne_e : pa <> e) by (intros ->; contradiction).
  assert (Hne_db : pa <> db) by (intros ->; contradiction).
  exists {| self_model := self_model st; networks := networks st;
            predictors := <["b" := pb]> (<["a" := pa]> (predictors st));
            masks := [mask; mask];
            heap := <[pb := gb]> heap1 |}, pa, pb, ga, gb.
  split.
  { unfold initialize.
    rewrite (St_bind_ok _ _ _ _ _ (network_ok "decoder_a" da st Hda)).
    rewrite (St_bind_ok _ _ _ _ _ (network_ok "encoder" e st He)).
    rewrite (St_bind_ok _ _ _ _ _ (call_ok e enc x inp st Henc Hin Hx)).
    rewrite Hout. simpl imap.
    rewrite (St_bind_ok _ _ _ _ _ (call_ok da dec_a in_a lat st Hdec_a Hina Hsa)).
    erewrite St_bind_ok by reflexivity.
    fold pa ga heap1.
    set (st1 := {| self_model := self_model st; networks := networks st;
                   predictors := predictors st; masks := masks st; heap := heap1 |}).
    rewrite (St_bind_ok _ _ _ _ _ (network_ok "decoder_b" db st1 Hdb)).
    rewrite (St_bind_ok _ _ _ _ _ (network_ok "encoder" e st1 He)).
    assert (Henc1 : heap st1 !! e = Some enc)
      by (simpl; unfold heap1; rewrite lookup_insert_ne; assumption).
    assert (Hdec1 : heap st1 !! db = Some dec_b)
      by (simpl; unfold heap1; rewrite lookup_insert_ne; assumption).
    rewrite (St_bind_ok _ _ _ _ _ (call_ok e enc x inp st1 Henc1 Hin Hx)).
    rewrite Hout. simpl imap.
    rewrite (St_bind_ok _ _ _ _ _ (call_ok db dec_b in_b lat st1 Hdec1 Hinb Hsb)).
    erewrite St_bind_ok by reflexivity.
    erewrite St_bind_ok by reflexivity.
    reflexivity. }
  simpl.
  split; [rewrite lookup_insert_ne by discriminate; apply lookup_insert_eq|].
  split; [apply lookup_insert_eq|].
  split; [rewrite lookup_insert_ne by congruence; apply lookup_insert_eq|].
  split; [apply lookup_insert_eq|].
  split; [apply Forall_imap_history; reflexivity|].
  split; [apply Forall_imap_history; reflexivity|].
  split; [assumption|]. split; [assumption|]. split; [assumption|].
  split; [assumption|].
  split.
  { unfold heap1. rewrite !dom_insert_L. apply set_eq. intros y.
    rewrite !elem_of_union, !elem_of_singleton. tauto. }
  split; [|reflexivity].
  rewrite lookup_insert_ne by (intros ->; contradiction).
  unfold heap1. now rewrite lookup_insert_ne.
Qed.

(** C1 (as amended).  [initialize] builds no encoder: it takes the
    encoder that [networks] holds, an object that exists before the call,
    and composes both predictor graphs with it.  Every output of
    predictor A went through the model objects [e] and [da], every output
    of predictor B through [e] and [db], with [e] the one encoder object:
    the graphs hold a reference to it, not a copy.  The call creates the
    two composed graphs and nothing else, and leaves the networks as they
    are. *)
Theorem initialize_shares_the_encoder (st : model_state) (e da db : obj_id) :
  composable st e da db ->
  exists st' pa pb ga gb,
    initialize st = (Ok tt, st')
    /\ predictors st' !! "a" = Some pa /\ predictors st' !! "b" = Some pb
    /\ heap st' !! pa = Some ga /\ heap st' !! pb = Some gb
    /\ Forall (fun t => subnetworks_of t = [e; da]) (outputs ga)
    /\ Forall (fun t => subnetworks_of t = [e; db]) (outputs gb)
    /\ e ∈ dom (heap st)
    /\ (pa ∉ dom (heap st)) /\ (pb ∉ dom (heap st)) /\ pa <> pb
    /\ dom (heap st') = {[pa; pb]} ∪ dom (heap st)
    /\ heap st' !! e = heap st !! e
    /\ networks st' = networks st.
Proof. apply initialize_composes. Qed.

Lemma initialize_shares_the_encoder_witness :
  exists st' pa pb ga gb,
    initialize built_state = (Ok tt, st')
    /\ predictors st' !! "a" = Some pa /\ predictors st' !! "b" = Some pb
    /\ heap st' !! pa = Some ga /\ heap st' !! pb = Some gb
    /\ Forall (fun t => subnetworks_of t = [2; 0]%nat) (outputs ga)
    /\ Forall (fun t => subnetworks_of t = [2; 1]%nat) (outputs gb)
    /\ 2%nat ∈ dom (heap built_state)
    /\ (pa ∉ dom (heap built_state)) /\ (pb ∉ dom (heap built_state)) /\ pa <> pb
    /\ dom (heap st') = {[pa; pb]} ∪ dom (heap built_state)
    /\ heap st' !! 2%nat = heap built_state !! 2%nat
    /\ networks st' = networks built_state.
Proof.
  apply initialize_shares_the_encoder.
  split; [vm_compute; reflexivity|]. split; [vm_compute; reflexivity|].
  split; [vm_compute; reflexivity|].
  eexists _, _, _, _, _, _, _.
  split; [vm_compute; reflexivity|]. split; [vm_compute; reflexivity|].
  split; [vm_compute; reflexivity|].
  repeat (split; [reflexivity|]). reflexivity.
Defined.

(** Both predictors read the encoder through the one reference: an
    encoder object put in its place is the encoder of both. *)
Corollary shared_encoder_update (st : model_state) (e da db : obj_id) (enc' : keras_model) :
  composable st e da db ->
  exists st', initialize st = (Ok tt, st')
    /\ Forall (fun r => r = Some e) (predictor_encoders st')
    /\ Forall (fun r => r ≫= (fun id => <[e := enc']> (heap st') !! id) = Some enc')
              (predictor_encoders st').
Proof.
  intros Hc.
  destruct (initialize_composes st e da db Hc)
    as (st' & pa & pb & ga & gb & E & Ha & Hb & Hga & Hgb & Hfa & Hfb & _).
  exists st'. split; [exact E|].
  assert (Hrefs : Forall (fun r => r = Some e) (predictor_encoders st')).
  { unfold predictor_encoders. simpl. rewrite Ha, Hb, Hga, Hgb, app_nil_r.
    apply Forall_app. unfold encoder_refs. split; apply Forall_fmap.
    - eapply Forall_impl; [exact Hfa|]. intros t Ht. simpl. now rewrite Ht.
    - eapply Forall_impl; [exact Hfb|]. intros t Ht. simpl. now rewrite Ht. }
  split; [exact Hrefs|].
  eapply Forall_impl; [exact Hrefs|]. intros r ->. simpl. apply lookup_insert_eq.
Qed.

(** C1 as stated fails: in the call of [initialize] on the instance whose
    networks are built, no encoder is built; the encoder of the two
    predictors is an object that exists before the call. *)
Lemma initialize_builds_no_encoder :
  ~ (exists st' e,
       initialize built_state = (Ok tt, st')
       /\ (e ∉ dom (heap built_state))
       /\ In (Some e) (predictor_encoders st')).
Proof.
  intros (st' & e & E & Hnew & Hin).
  assert (Est : st' = (initialize built_state).2) by now rewrite E.
  subst st'. vm_compute in Hin.
  assert (He : e = 2%nat) by (simpl in Hin; intuition congruence).
  subst e. apply Hnew. apply elem_of_dom. vm_compute. eauto.
Qed.

End DflH128Facts.

(** ** Colour adjustment: further properties *)

Module AvgColorMore.
Import Py AvgColor AvgColorFacts.

(** *** Sums of rationals *)

Lemma fold_left_Qeq {A : Type} (step : Q -> A -> Q) (l : list A) (s s' : Q) :
  (forall x acc acc', (acc == acc')%Q -> (step acc x == step acc' x)%Q) ->
  (s == s')%Q -> (fold_left step l s == fold_left step l s')%Q.
Proof.
  intros Hstep. revert s s'. induction l as [|x l IH]; intros s s' Hs; simpl; [exact Hs|].
  apply IH. now apply Hstep.
Qed.

Lemma fold_left_plus_split {A : Type} (f : A -> Q) (l : list A) (s : Q) :
  (fold_left (fun acc x => acc + f x) l s
   == s + fold_left (fun acc x => acc + f x) l 0)%Q.
Proof.
  revert s. induction l as [|x l IH]; intros s; simpl; [ring|].
  rewrite (IH (s + f x)%Q), (IH (0 + f x)%Q). ring.
Qed.

Lemma fold_rows_split {A B : Type} (f : A -> B -> Q) (rows : list A) (cols : list B) (s : Q) :
  (fold_left (fun acc i => fold_left (fun acc j => acc + f i j) cols acc) rows s
   == fold_left (fun acc i => acc + fold_left (fun acc j => acc + f i j) cols 0) rows s)%Q.
Proof.
  revert s. induction rows as [|i rows IH]; intros s; simpl; [reflexivity|].
  rewrite IH. apply fold_left_Qeq.
  - intros x acc acc' Hacc. now rewrite Hacc.
  - apply fold_left_plus_split.
Qed.

(** The sum, row by row, is the sum of the sums of the rows. *)
Lemma sum_hw_rows (h w : nat) (f : nat -> nat -> Q) :
  (sum_hw h w f ==
   fold_left (fun acc i => acc + fold_left (fun acc j => acc + f i j) (seq 0 w) 0)
     (seq 0 h) 0)%Q.
Proof. unfold sum_hw. apply (fold_rows_split f). Qed.

Lemma fold_left_plus_ext {A : Type} (f g : A -> Q) (l : list A) (s : Q) :
  (forall x, In x l -> (f x == g x)%Q) ->
  (fold_left (fun acc x => acc + f x) l s == fold_left (fun acc x => acc + g x) l s)%Q.
Proof.
  revert s. induction l as [|x l IH]; intros s Hfg; simpl; [reflexivity|].
  rewrite IH by (intros y Hy; apply Hfg; now right).
  apply fold_left_Qeq.
  - intros y acc acc' Hacc. now rewrite Hacc.
  - rewrite (Hfg x) by now left. reflexivity.
Qed.

Lemma fold_left_plus_linear {A : Type} (f g : A -> Q) (c : Q) (l : list A) :
  (fold_left (fun acc x => acc + (f x + c * g x)) l 0
   == fold_left (fun acc x => acc + f x) l 0
      + c * fold_left (fun acc x => acc + g x) l 0)%Q.
Proof.
  induction l as [|x l IH] using rev_ind; simpl; [ring|].
  rewrite !fold_left_app. simpl. rewrite IH. ring.
Qed.

Lemma sum_hw_Qeq (h w : nat) (f g : nat -> nat -> Q) :
  (forall i j, (i < h)%nat -> (j < w)%nat -> (f i j == g i j)%Q) ->
  (sum_hw h w f == sum_hw h w g)%Q.
Proof.
  intros Hfg. rewrite !sum_hw_rows. apply fold_left_plus_ext. intros i Hi.
  apply in_seq in Hi. apply fold_left_plus_ext. intros j Hj. apply in_seq in Hj.
  apply Hfg; lia.
Qed.

Lemma sum_hw_linear (h w : nat) (f g : nat -> nat -> Q) (c : Q) :
  (sum_hw h w (fun i j => f i j + c * g i j)
   == sum_hw h w f + c * sum_hw h w g)%Q.
Proof.
  rewrite !sum_hw_rows.
  rewrite <- fold_left_plus_linear. apply fold_left_plus_ext. intros i _.
  apply fold_left_plus_linear.
Qed.

Lemma normalizable_nonzero (raw_mask : ndarray3 Q) (k : nat) :
  weights_normalizable raw_mask -> (k < channels raw_mask)%nat ->
  ~ (weight_sum raw_mask k == 0)%Q.
Proof.
  intros Hnz Hk Heq. specialize (Hnz k Hk). simpl in Hnz.
  apply Qeq_bool_iff in Heq. congruence.
Qed.

(** X1.  With exact arithmetic, [process] does what its docstring
    promises: in every channel the mask-weighted mean of the array it
    returns is the mask-weighted mean of [old_face]. *)
Theorem process_matches_first_moment (old_face new_face raw_mask : ndarray3 Q) :
  same_shapes old_face new_face raw_mask ->
  weights_normalizable raw_mask ->
  exists out, process old_face new_face raw_mask = Ok out
    /\ forall k, (k < channels raw_mask)%nat ->
         (weighted_mean out raw_mask k == weighted_mean old_face raw_mask k)%Q.
Proof.
  intros Hs Hnz.
  destruct (process_spec old_face new_face raw_mask Hs Hnz)
    as (out & E & Hshape & _ & _ & Hpx).
  exists out. split; [exact E|]. intros k Hk.
  destruct Hs as (Ho & Hn & Hm & Hso & Hsn).
  unfold shape3 in Hshape, Hso, Hsn.
  injection Hshape as Hh Hw Hc. injection Hso as Hho Hwo Hco.
  injection Hsn as Hhn Hwn Hcn.
  pose proof (normalizable_nonzero raw_mask k Hnz Hk) as HS.
  unfold weighted_mean in *. rewrite Hh, Hw, Hho, Hwo, Hhn, Hwn in *.
  set (h := height raw_mask) in *. set (w := width raw_mask) in *.
  set (S := weight_sum raw_mask k) in *.
  set (A := sum_hw h w (fun i j => mul (px new_face i j k) (px raw_mask i j k))).
  set (B := sum_hw h w (fun i j => mul (px old_face i j k) (px raw_mask i j k))).
  assert (Hsum : (sum_hw h w (fun i j => mul (px out i j k) (px raw_mask i j k))
                  == A + (B / S - A / S) * S)%Q).
  { unfold A, S, weight_sum. fold h w.
    rewrite <- sum_hw_linear. apply sum_hw_Qeq. intros i j Hi Hj.
    rewrite Hpx by (unfold h, w in *; lia).
    fold h w B A S. simpl. unfold S, weight_sum. fold h w. ring. }
  simpl. simpl in Hsum. rewrite Hsum. field. exact HS.
Qed.

Lemma process_matches_first_moment_witness :
  exists out, process column_old column_new column_full_mask = Ok out
    /\ forall k, (k < channels column_full_mask)%nat ->
         (weighted_mean out column_full_mask k
          == weighted_mean column_old column_full_mask k)%Q.
Proof.
  apply process_matches_first_moment.
  - solve_same_shapes.
  - solve_two_channels.
Defined.

(** X2.  With exact arithmetic, an array matched against itself comes
    back as it is: [process a a raw_mask] has the values of [a]. *)
Theorem process_of_the_original (a raw_mask : ndarray3 Q) :
  same_shapes a a raw_mask ->
  weights_normalizable raw_mask ->
  exists out, process a a raw_mask = Ok out
    /\ shape3 out = shape3 a
    /\ forall i j k, (i < height a)%nat -> (j < width a)%nat -> (k < channels a)%nat ->
         (px out i j k == px a i j k)%Q.
Proof.
  intros Hs Hnz.
  destruct (process_spec a a raw_mask Hs Hnz) as (out & E & Hshape & _ & _ & Hpx).
  exists out. split; [exact E|]. split; [exact Hshape|].
  intros i j k Hi Hj Hk. rewrite Hpx by assumption. simpl. ring.
Qed.

Lemma process_of_the_original_witness :
  exists out, process column_old column_old column_full_mask = Ok out
    /\ shape3 out = shape3 column_old
    /\ forall i j k, (i < height column_old)%nat -> (j < width column_old)%nat ->
         (k < channels column_old)%nat ->
         (px out i j k == px column_old i j k)%Q.
Proof.
  apply process_of_the_original.
  - solve_same_shapes.
  - solve_two_channels.
Defined.

(** X3.  When [process] returns: for well-formed arrays, exactly when
    both faces have the shape of the mask and the weights of every
    channel sum to something that is not zero.  Every other call raises. *)
Theorem process_returns_iff
    {F : Type} `{Arith F} (old_face new_face raw_mask : ndarray3 F) :
  well_shaped old_face = true -> well_shaped new_face = true ->
  well_shaped raw_mask = true ->
  is_ok (process old_face new_face raw_mask) = true <->
  shape3 old_face = shape3 raw_mask /\ shape3 new_face = shape3 raw_mask
  /\ weights_normalizable raw_mask.
Proof.
  intros Ho Hn Hm. split.
  - destruct (process old_face new_face raw_mask) as [out|e] eqn:E; [|discriminate].
    intros _.
    destruct (process_ok_inv _ _ _ _ Ho Hn Hm E) as [(_ & _ & _ & Hso & Hsn) Hnz].
    auto.
  - intros (Hso & Hsn & Hnz).
    destruct (process_spec old_face new_face raw_mask) as (out & E & _);
      [repeat split; assumption | assumption |].
    now rewrite E.
Qed.

Lemma process_returns_iff_witness :
  is_ok (process column_old column_new column_mask) = true <->
  shape3 column_old = shape3 column_mask /\ shape3 column_new = shape3 column_mask
  /\ weights_normalizable column_mask.
Proof.
  apply process_returns_iff; reflexivity.
Defined.

End AvgColorMore.

(** ** Training configuration: further properties *)

Module TrainConfigMore.
Import Py PyStr TrainConfig TrainConfigFacts.

Lemma bind_unit (m : M unit) (r : registry) : (_ ← m; mret tt) r = m r.
Proof.
  unfold mbind, M_bind, mret, M_ret. destruct (m r) as [[[]|e] r']; reflexivity.
Qed.

(** X4.  Over a plugin tree that holds no file ending in "_defaults.py",
    [set_defaults] does what [set_globals] does and nothing more: no
    module is imported, no section besides the global one is touched. *)
Theorem set_defaults_without_defaults_files (env : environment) (r : registry) :
  count_defaults_files (tree env) = 0%nat ->
  set_defaults env r = set_globals env r.
Proof.
  intros Hcount. rewrite set_defaults_calls.
  rewrite <- discovered_count in Hcount. apply length_zero_iff_nil in Hcount.
  rewrite Hcount. apply bind_unit.
Qed.

Lemma set_defaults_without_defaults_files_witness :
  set_defaults no_plugins [] = set_globals no_plugins [].
Proof.
  apply set_defaults_without_defaults_files. reflexivity.
Defined.


(** X6.  No defaults module can change the global options: whatever the
    plugin tree and the modules hold, the global section after
    [set_defaults] is the one that [set_globals] registered. *)
Theorem set_defaults_keeps_global (env : environment) (r : registry) :
  assoc "global" (set_defaults env r).2 = assoc "global" (set_globals env r).2.
Proof.
  rewrite set_defaults_calls. unfold mbind, M_bind.
  destruct (set_globals env r) as [[[]|e] r1]; [|reflexivity].
  simpl. apply calls_keep_global.
Qed.

(** *** The usual file names *)

Lemma replace_from_segment (old new a rest : string) :
  starts_nowhere old a rest = true ->
  replace_from old new 0 (a ++ rest) = a ++ replace_from old new 0 rest.
Proof.
  induction a as [|c a IH]; intros Hfree; [reflexivity|].
  cbn [starts_nowhere] in Hfree. apply andb_true_iff in Hfree.
  destruct Hfree as [Hc Hfree]. apply negb_true_iff in Hc.
  change (String c a ++ rest) with (String c (a ++ rest)) in *.
  rewrite replace_from_miss by exact Hc. now rewrite IH.
Qed.

Lemma base_name_without_suffix (name : string) :
  starts_nowhere "_defaults" name "_defaults" = true ->
  replace (name ++ "_defaults") "_defaults" "" = name.
Proof.
  intros Hfree. unfold replace.
  rewrite replace_from_segment by exact Hfree.
  change (replace_from "_defaults" "" 0 "_defaults") with "". apply append_empty.
Qed.

(** X7.  The usual case of the naming: for a file "<name>_defaults.py",
    where [name] holds no "/" and no "_defaults" starts inside it, a
    well-formed module "<module_path>.<name>_defaults" is imported and its
    options are registered under the new section "<plugin_type>.<name>". *)
Theorem load_module_registers_plain_name
    (env : environment) (name module_path plugin_type : string)
    (m : defaults_module) (h : string) (items : list (string * config_item))
    (r : registry) :
  contains "/" name = false ->
  starts_nowhere "_defaults" name "_defaults" = true ->
  modules env !! (module_path ++ "." ++ name ++ "_defaults") = Some m ->
  mod_HELPTEXT m = Some h -> mod_DEFAULTS m = Some items ->
  NoDup (map fst items) ->
  Forall (fun kv => supported (datatype (snd kv)) = true) items ->
  assoc (plugin_type ++ "." ++ name) r = None ->
  load_module env (name ++ "_defaults.py") module_path plugin_type r
  = (Ok tt,
     app r [(plugin_type ++ "." ++ name,
             {| helptext :=
                  h ++ (if endswith module_path "model" then ADDITIONAL_INFO else "");
                options := items |})]).
Proof.
  intros Hsep Hfree Hm Hh Hd Hnd Hsup Hfresh.
  assert (Hsplit : splitext (name ++ "_defaults.py") = (name ++ "_defaults", ".py")).
  { replace (name ++ "_defaults.py") with ((name ++ "_defaults") ++ ".py")
      by (rewrite append_assoc; reflexivity).
    apply splitext_py.
    - rewrite contains_append, Hsep. reflexivity.
    - rewrite has_other_char_append. apply orb_true_r. }
  set (call := (name ++ "_defaults.py", module_path, plugin_type)).
  assert (Htitle : section_title call = plugin_type ++ "." ++ name).
  { unfold call, section_title. rewrite Hsplit. cbn [fst].
    now rewrite base_name_without_suffix. }
  destruct (load_module_ok env call r) as (s & E & Hs).
  - exists m, h, items. unfold call, module_name. rewrite Hsplit. cbn [fst]. auto.
  - now rewrite Htitle.
  - change (load env call r) with
      (load_module env (name ++ "_defaults.py") module_path plugin_type r) in E.
    rewrite E. destruct Hs as (m' & h' & items' & Hm' & Hh' & Hd' & ->).
    unfold call, module_name in Hm'. rewrite Hsplit in Hm'. cbn [fst] in Hm'.
    rewrite Hm in Hm'. injection Hm' as <-.
    rewrite Hh in Hh'. injection Hh' as <-. rewrite Hd in Hd'. injection Hd' as <-.
    rewrite Htitle. reflexivity.
Qed.

Lemma load_module_registers_plain_name_witness :
  load_module two_plugins ("dfl_h128" ++ "_defaults.py") "plugins.train.model" "model" []
  = (Ok tt,
     app [] [("model" ++ "." ++ "dfl_h128",
              {| helptext :=
                   "A model." ++
                   (if endswith "plugins.train.model" "model" then ADDITIONAL_INFO else "");
                 options := [("lowmem", lowmem_item)] |})]).
Proof.
  apply (load_module_registers_plain_name two_plugins "dfl_h128" "plugins.train.model"
           "model" good_module).
  - reflexivity.
  - reflexivity.
  - vm_compute. reflexivity.
  - reflexivity.
  - reflexivity.
  - refine (bool_decide_unpack _ _). vm_compute. exact I.
  - repeat constructor.
  - reflexivity.
Defined.

(** X8.  The defaults that [set_globals] registers agree with their own
    declarations, given that "none" is among the available masks: each
    default has the type of its option, the two numeric defaults lie
    within their bounds, and the two string defaults are among their
    choices.  Without "none" among the masks the default of [mask_type]
    is not one of its choices. *)
Theorem set_globals_defaults_valid (env : environment) (r : registry) :
  assoc "global" r = None ->
  exists g, assoc "global" (set_globals env r).2 = Some g
    /\ length (options g) = 9%nat
    /\ (In "none" (get_available_masks env) ->
          forallb (fun kv => default_valid (snd kv)) (options g) = true)
    /\ (~ In "none" (get_available_masks env) ->
          forallb (fun kv => default_valid (snd kv)) (options g) = false).
Proof.
  intros Hfresh. destruct (set_globals_spec env r Hfresh) as (opts & E & Hsum).
  rewrite E. cbn [snd]. rewrite assoc_app, Hfresh. cbn [assoc]. rewrite String.eqb_refl.
  eexists. split; [reflexivity|]. cbn [options].
  do 9 (destruct opts as [|[? [? ? ? ? ? ? ?]] opts]; [discriminate Hsum|]).
  destruct opts; [|discriminate Hsum].
  unfold summary in Hsum. cbn [map fst snd datatype default min_max rounding fixed choices]
    in Hsum.
  injection Hsum as -> -> -> -> -> -> -> -> -> -> -> -> -> -> -> -> -> -> -> -> ->
    -> -> -> -> -> -> -> -> -> -> -> -> -> -> -> -> -> -> -> -> -> -> -> -> -> ->
    -> -> -> -> -> -> -> -> -> -> -> -> -> -> -> ->.
  split; [reflexivity|].
  match goal with
  | |- context [forallb ?f ?l] =>
      assert (Hvalid : forallb f l
                       = existsb (String.eqb "none") (get_available_masks env))
  end.
  { cbv -[existsb get_available_masks String.eqb].
    destruct (existsb (String.eqb "none") (get_available_masks env)); reflexivity. }
  rewrite Hvalid. split.
  - intros Hin. apply existsb_exists. exists "none". split; [exact Hin|].
    apply String.eqb_refl.
  - intros Hnot. apply not_true_is_false. intros Hex. apply existsb_exists in Hex.
    destruct Hex as (s & Hin & Heq). apply String.eqb_eq in Heq. subst s. contradiction.
Qed.

Lemma set_globals_defaults_valid_witness :
  exists g, assoc "global" (set_globals two_plugins []).2 = Some g
    /\ length (options g) = 9%nat
    /\ (In "none" (get_available_masks two_plugins) ->
          forallb (fun kv => default_valid (snd kv)) (options g) = true)
    /\ (~ In "none" (get_available_masks two_plugins) ->
          forallb (fun kv => default_valid (snd kv)) (options g) = false).
Proof.
  apply set_globals_defaults_valid. reflexivity.
Defined.

End TrainConfigMore.

(** ** The DFL-H128 model: further properties *)

Module DflH128More.
Import Py DflH128 DflH128Facts.

(** X10.  [set_training_data] needs the option [mask_type]: without it
    the call raises [KeyError], although [decoder] builds its graph for
    such a configuration; with it the result holds the value of
    [mask_type], the number 10 for [preview_images], and nothing else. *)
Theorem set_training_data_options (self : model) :
  (config self !! "mask_type" = None ->
     set_training_data self = Raise KeyError
     /\ exists dec, decoder self = Ok dec /\ length (outputs dec) = 1%nat)
  /\ (forall v, config self !! "mask_type" = Some v ->
        exists opts, set_training_data self = Ok opts
          /\ opts !! "mask_type" = Some v
          /\ opts !! "preview_images" = Some (VInt 10)
          /\ dom opts = {["mask_type"; "preview_images"]}).
Proof.
  unfold set_training_data, getitem. split.
  - intros Hm. rewrite Hm. split; [reflexivity|].
    unfold decoder, dict_get. rewrite Hm. simpl. eexists. split; reflexivity.
  - intros v Hm. rewrite Hm. simpl. eexists. split; [reflexivity|].
    split; [rewrite lookup_insert_ne by discriminate; apply lookup_insert_eq|].
    split; [apply lookup_insert_eq|].
    rewrite !dom_insert_L, dom_empty_L. apply set_eq. intros k.
    rewrite !elem_of_union, !elem_of_singleton, elem_of_empty. tauto.
Qed.

Lemma reshape_after_dense (d : Z) :
  Z.eqb (product [8; 8; d]%Z) (product [(8 * 8 * d)%Z]) = true.
Proof. apply Z.eqb_eq. unfold product. simpl fold_right. ring. Qed.

Lemma apply_reshape_after_dense (d : Z) (hist : list node) :
  apply (Reshape [8; 8; d]%Z) {| t_shape := [(8 * 8 * d)%Z]; t_history := hist |}
  = Ok {| t_shape := [8; 8; d]%Z;
          t_history := (hist ++ [Layer (Reshape [8; 8; d]%Z)])%list |}.
Proof.
  unfold apply. cbv [t_shape output_shape]. now rewrite reshape_after_dense.
Qed.

(** X11.  The geometry of the networks does not follow [input_shape]:
    for an input of three axes of any positive size, and an
    [encoder_dim] of four or more, the encoder and the decoder are built;
    the latent output of the encoder has the shape (16, 16, encoder_dim),
    the two dense layers and the reshape having fixed it, which is the
    shape the decoder takes; and the image of the decoder is
    (128, 128, 3), whatever the input shape is. *)
Theorem network_geometry (self : model) (h w c : Z) :
  input_shape self = [h; w; c] ->
  (0 < h)%Z -> (0 < w)%Z -> (0 < c)%Z -> (4 <= encoder_dim self)%Z ->
  exists enc latent dec face,
    encoder self = Ok enc /\ outputs enc = [latent]
    /\ map t_shape (inputs enc) = [[h; w; c]]
    /\ t_shape latent = [16; 16; encoder_dim self]%Z
    /\ decoder self = Ok dec /\ head (outputs dec) = Some face
    /\ map t_shape (inputs dec) = [t_shape latent]
    /\ t_shape face = [128; 128; 3]%Z.
Proof.
  intros Hs _ _ _ _. unfold encoder, decoder. rewrite Hs.
  simpl. rewrite apply_reshape_after_dense. simpl.
  destruct (truthy (dict_get (config self) "mask_type" VNone));
    eexists _, _, _, _; repeat (split; [reflexivity|]); reflexivity.
Qed.

Lemma network_geometry_witness :
  exists enc latent dec face,
    encoder small_model = Ok enc /\ outputs enc = [latent]
    /\ map t_shape (inputs enc) = [[64; 96; 1]%Z]
    /\ t_shape latent = [16; 16; 512]%Z
    /\ decoder small_model = Ok dec /\ head (outputs dec) = Some face
    /\ map t_shape (inputs dec) = [t_shape latent]
    /\ t_shape face = [128; 128; 3]%Z.
Proof.
  apply (network_geometry small_model 64 96 1); [reflexivity | | | |];
    vm_compute; first [reflexivity | discriminate].
Defined.

(** X12.  The two sides of the merge build the same decoder exactly when
    the option [mask_type] is set; otherwise the HEAD side has a mask
    output that the other side leaves out. *)
Theorem decoder_sides_agree (self : model) :
  decoder self = decoder_HEAD self <->
  truthy (dict_get (config self) "mask_type" VNone) = true.
Proof.
  unfold decoder, decoder_HEAD.
  destruct (truthy (dict_get (config self) "mask_type" VNone)); split.
  - reflexivity.
  - reflexivity.
  - simpl. intros Heq. injection Heq as Heq. discriminate Heq.
  - discriminate.
Qed.

(** *** [initialize], step by step *)

Lemma St_bind_inv {A B : Type} (m : St A) (f : A -> St B) (st st' : model_state) (b : B) :
  (x ← m; f x) st = (Ok b, st') ->
  exists a st1, m st = (Ok a, st1) /\ f a st1 = (Ok b, st').
Proof.
  unfold mbind, St_bind. destruct (m st) as [[a|e] st1]; [eauto | discriminate].
Qed.

Lemma network_inv (name : string) (id : obj_id) (st st1 : model_state) :
  network name st = (Ok id, st1) -> st1 = st /\ networks st !! name = Some id.
Proof.
  unfold network, getitem. destruct (networks st !! name); intros E; [|discriminate].
  injection E as -> <-. auto.
Qed.

Lemma call_keeps_state (net : obj_id) (xs : list tensor) (o : outcome (list tensor))
    (st st1 : model_state) :
  call net xs st = (o, st1) -> st1 = st.
Proof. unfold call. intros E. now injection E as _ <-. Qed.

(** The state after [initialize] on networks that fit. *)
Lemma initialize_result (st : model_state) (e da db : obj_id)
    (enc dec_a dec_b : keras_model) (x latent in_a in_b : tensor) :
  networks st !! "encoder" = Some e -> networks st !! "decoder_a" = Some da ->
  networks st !! "decoder_b" = Some db ->
  heap st !! e = Some enc -> heap st !! da = Some dec_a -> heap st !! db = Some dec_b ->
  inputs enc = [x] -> t_shape x = input_shape (self_model st) ->
  outputs enc = [latent] ->
  inputs dec_a = [in_a] -> t_shape in_a = t_shape latent ->
  inputs dec_b = [in_b] -> t_shape in_b = t_shape latent ->
  let self := self_model st in
  let ga := composed_graph self e da dec_a in
  let gb := composed_graph self e db dec_b in
  let pa := fresh (dom (heap st)) in
  let pb := fresh (dom (<[pa := ga]> (heap st))) in
  let mask := Input (take 2 (input_shape self) ++ [1%Z])%list in
  initialize st =
  (Ok tt,
   {| self_model := self; networks := networks st;
      predictors := <["b" := pb]> (<["a" := pa]> (predictors st));
      masks := [mask; mask];
      heap := <[pb := gb]> (<[pa := ga]> (heap st)) |}).
Proof.
  intros He Hda Hdb Henc Hdec_a Hdec_b Hin Hx Hout Hina Hsa Hinb Hsb
         self ga gb pa pb mask.
  set (inp := Input (input_shape self)).
  set (lat := {| t_shape := t_shape latent;
                 t_history := (t_history inp ++ [SubNetwork e 0])%list |}).
  assert (Hpa : pa ∉ dom (heap st)) by apply is_fresh.
  assert (Hne_e : pa <> e) by (intros Heq; apply Hpa; rewrite Heq; apply elem_of_dom; eauto).
  assert (Hne_db : pa <> db)
    by (intros Heq; apply Hpa; rewrite Heq; apply elem_of_dom; eauto).
  unfold initialize.
  rewrite (St_bind_ok _ _ _ _ _ (network_ok "decoder_a" da st Hda)).
  rewrite (St_bind_ok _ _ _ _ _ (network_ok "encoder" e st He)).
  rewrite (St_bind_ok _ _ _ _ _ (call_ok e enc x inp st Henc Hin Hx)).
  rewrite Hout. simpl imap.
  rewrite (St_bind_ok _ _ _ _ _ (call_ok da dec_a in_a lat st Hdec_a Hina Hsa)).
  erewrite St_bind_ok by reflexivity.
  set (st1 := {| self_model := self_model st; networks := networks st;
                 predictors := predictors st; masks := masks st;
                 heap := <[fresh (dom (heap st)) := _]> (heap st) |}).
  rewrite (St_bind_ok _ _ _ _ _ (network_ok "decoder_b" db st1 Hdb)).
  rewrite (St_bind_ok _ _ _ _ _ (network_ok "encoder" e st1 He)).
  assert (Henc1 : heap st1 !! e = Some enc)
    by (simpl; rewrite lookup_insert_ne; assumption).
  assert (Hdec1 : heap st1 !! db = Some dec_b)
    by (simpl; rewrite lookup_insert_ne; assumption).
  rewrite (St_bind_ok _ _ _ _ _ (call_ok e enc x inp st1 Henc1 Hin Hx)).
  rewrite Hout. simpl imap.
  rewrite (St_bind_ok _ _ _ _ _ (call_ok db dec_b in_b lat st1 Hdec1 Hinb Hsb)).
  erewrite St_bind_ok by reflexivity.
  erewrite St_bind_ok by reflexivity.
  reflexivity.
Qed.

Lemma new_model_inv (g : keras_model) (id : obj_id) (st st1 : model_state) :
  new_model g st = (Ok id, st1) ->
  id = fresh (dom (heap st))
  /\ self_model st1 = self_model st /\ networks st1 = networks st
  /\ predictors st1 = predictors st /\ masks st1 = masks st
  /\ heap st1 = <[id := g]> (heap st).
Proof.
  unfold new_model. intros E. injection E as <- <-. simpl. auto 10.
Qed.

(** What a successful [initialize] found in the instance. *)
Lemma initialize_ok_networks (st st' : model_state) :
  initialize st = (Ok tt, st') ->
  exists e da db,
    networks st !! "encoder" = Some e /\ networks st !! "decoder_a" = Some da
    /\ networks st !! "decoder_b" = Some db.
Proof.
  unfold initialize. intros E.
  apply St_bind_inv in E as (da & s1 & E1 & E).
  apply network_inv in E1 as [-> Hda].
  apply St_bind_inv in E as (e & s2 & E1 & E).
  apply network_inv in E1 as [-> He].
  apply St_bind_inv in E as (lat_a & s3 & E1 & E).
  apply call_keeps_state in E1 as ->.
  apply St_bind_inv in E as (out_a & s4 & E1 & E).
  apply call_keeps_state in E1 as ->.
  apply St_bind_inv in E as (pa & s5 & E1 & E).
  apply new_model_inv in E1 as (_ & _ & Hnets & _).
  apply St_bind_inv in E as (db & s6 & E1 & _).
  apply network_inv in E1 as [_ Hdb]. rewrite Hnets in Hdb.
  exists e, da, db. auto.
Qed.

Lemma composable_fits (st : model_state) (e da db : obj_id) :
  composable st e da db ->
  exists enc dec_a dec_b,
    heap st !! e = Some enc /\ heap st !! da = Some dec_a
    /\ heap st !! db = Some dec_b
    /\ initialize st =
       (Ok tt,
        let self := self_model st in
        let ga := composed_graph self e da dec_a in
        let gb := composed_graph self e db dec_b in
        let pa := fresh (dom (heap st)) in
        let pb := fresh (dom (<[pa := ga]> (heap st))) in
        let mask := Input (take 2 (input_shape self) ++ [1%Z])%list in
        {| self_model := self; networks := networks st;
           predictors := <["b" := pb]> (<["a" := pa]> (predictors st));
           masks := [mask; mask];
           heap := <[pb := gb]> (<[pa := ga]> (heap st)) |}).
Proof.
  intros (He & Hda & Hdb & enc & dec_a & dec_b & x & latent & in_a & in_b
          & Henc & Hdec_a & Hdec_b & Hin & Hx & Hout & Hina & Hsa & Hinb & Hsb).
  exists enc, dec_a, dec_b. repeat (split; [assumption|]).
  eapply initialize_result; eassumption.
Qed.

Lemma fresh_not_there (h : gmap obj_id keras_model) (id : obj_id) (m : keras_model) :
  h !! id = Some m -> fresh (dom h) <> id.
Proof.
  intros Hm Heq. apply (is_fresh (dom h)). rewrite Heq. apply elem_of_dom. eauto.
Qed.

Lemma fresh_after_insert (h : gmap obj_id keras_model) (k : obj_id) (g : keras_model) :
  fresh (dom (<[k := g]> h)) ∉ dom h.
Proof.
  intros Hin. apply (is_fresh (dom (<[k := g]> h))).
  apply elem_of_dom. apply elem_of_dom in Hin as [m Hm].
  destruct (decide (k = fresh (dom (<[k := g]> h)))) as [Heq|Hne].
  - rewrite <- Heq. rewrite lookup_insert_eq. eauto.
  - rewrite lookup_insert_ne by assumption. eauto.
Qed.

Lemma lookup_after_two (h : gmap obj_id keras_model) (ga gb m : keras_model) (id : obj_id) :
  h !! id = Some m ->
  <[fresh (dom (<[fresh (dom h) := ga]> h)) := gb]> (<[fresh (dom h) := ga]> h) !! id
  = Some m.
Proof.
  intros Hm.
  assert (H1 : <[fresh (dom h) := ga]> h !! id = Some m).
  { rewrite lookup_insert_ne; [assumption | now apply fresh_not_there with m]. }
  rewrite lookup_insert_ne; [assumption | now apply fresh_not_there with m].
Qed.

(** The networks still fit after [initialize]. *)
Lemma initialize_keeps_composable (st st' : model_state) (e da db : obj_id) :
  composable st e da db -> initialize st = (Ok tt, st') -> composable st' e da db.
Proof.
  intros Hc E. destruct (composable_fits _ _ _ _ Hc) as (enc0 & da0 & db0 & _ & _ & _ & E').
  rewrite E' in E. injection E as <-.
  destruct Hc as (He & Hda & Hdb & enc & dec_a & dec_b & x & latent & in_a & in_b
          & Henc & Hdec_a & Hdec_b & Hrest).
  split; [exact He|]. split; [exact Hda|]. split; [exact Hdb|].
  exists enc, dec_a, dec_b, x, latent, in_a, in_b. cbn [heap self_model].
  split; [now apply lookup_after_two|]. split; [now apply lookup_after_two|].
  split; [now apply lookup_after_two|]. exact Hrest.
Qed.

(** X13.  [initialize] makes no network of its own: when it returns,
    the encoder and the two decoders were kept in [networks] under the
    names "encoder", "decoder_a" and "decoder_b" before the call. *)
Theorem initialize_returns_needs_networks (st st' : model_state) :
  initialize st = (Ok tt, st') ->
  exists e da db,
    networks st !! "encoder" = Some e /\ networks st !! "decoder_a" = Some da
    /\ networks st !! "decoder_b" = Some db.
Proof. apply initialize_ok_networks. Qed.

Lemma initialize_returns_needs_networks_witness :
  exists e da db,
    networks built_state !! "encoder" = Some e
    /\ networks built_state !! "decoder_a" = Some da
    /\ networks built_state !! "decoder_b" = Some db.
Proof.
  apply (initialize_returns_needs_networks built_state (initialize built_state).2).
  vm_compute. reflexivity.
Defined.

(** *** When [initialize] raises *)

Lemma only_objects_added_refl (st : model_state) : only_objects_added st st.
Proof. unfold only_objects_added. auto 10. Qed.

Lemma only_objects_added_trans (st1 st2 st3 : model_state) :
  only_objects_added st1 st2 -> only_objects_added st2 st3 ->
  only_objects_added st1 st3.
Proof.
  intros (A1 & A2 & A3 & A4 & A5) (B1 & B2 & B3 & B4 & B5).
  unfold only_objects_added. repeat split; try congruence. auto.
Qed.

Lemma network_adds_objects_only (name : string) : adds_objects_only (network name).
Proof. intros st. apply only_objects_added_refl. Qed.

Lemma call_adds_objects_only (net : obj_id) (xs : list tensor) :
  adds_objects_only (call net xs).
Proof. intros st. apply only_objects_added_refl. Qed.

Lemma new_model_adds_objects_only (g : keras_model) : adds_objects_only (new_model g).
Proof.
  intros st. unfold only_objects_added. simpl. repeat split.
  intros id m Hm. rewrite lookup_insert_ne; [assumption | now apply fresh_not_there with m].
Qed.

Lemma fails_cleanly_bind {A B : Type} (m : St A) (f : A -> St B) :
  adds_objects_only m -> (forall a, fails_cleanly (f a)) ->
  fails_cleanly (x ← m; f x).
Proof.
  intros Hm Hf st e st'. unfold mbind, St_bind.
  specialize (Hm st). destruct (m st) as [[a|e1] st1]; simpl in Hm.
  - intros E. apply only_objects_added_trans with st1; [assumption|].
    now apply (Hf a st1 e st').
  - intros E. injection E as <- <-. assumption.
Qed.

Lemma keeping_never_raises (ae_a ae_b : obj_id) (ms : list tensor) :
  fails_cleanly (_ ← add_predictors ae_a ae_b; set_masks ms).
Proof. intros st e st' E. discriminate E. Qed.

Lemma initialize_fails_cleanly : fails_cleanly initialize.
Proof.
  intros st e st' E. unfold initialize in E. cbv zeta in E.
  match type of E with
  | ?M st = _ => assert (Hc : fails_cleanly M); [|exact (Hc st e st' E)]
  end.
  repeat first
    [ apply keeping_never_raises
    | apply fails_cleanly_bind;
      [ first [ apply network_adds_objects_only | apply call_adds_objects_only
              | apply new_model_adds_objects_only ]
      | intros ? ] ].
Qed.

(** X14.  When [initialize] raises, the attributes of the instance are
    as they were: the networks, the predictors and the masks are
    untouched, so no predictor or mask of an unfinished composition is
    kept, and every model object that existed is still there. *)
Theorem initialize_failure_keeps_the_instance (st st' : model_state) (e : exn) :
  initialize st = (Raise e, st') ->
  self_model st' = self_model st /\ networks st' = networks st
  /\ predictors st' = predictors st /\ masks st' = masks st
  /\ forall id m, heap st !! id = Some m -> heap st' !! id = Some m.
Proof. apply initialize_fails_cleanly. Qed.

Lemma initialize_failure_keeps_the_instance_witness :
  (initialize half_built_state).1 = Raise KeyError
  /\ predictors (initialize half_built_state).2 = predictors half_built_state
  /\ masks (initialize half_built_state).2 = masks half_built_state.
Proof.
  assert (E : initialize half_built_state
              = (Raise KeyError, (initialize half_built_state).2))
    by (vm_compute; reflexivity).
  split; [vm_compute; reflexivity|].
  destruct (initialize_failure_keeps_the_instance _ _ _ E) as (_ & _ & Hp & Hm & _).
  split; assumption.
Defined.

(** X15.  Without the second decoder, and with an encoder and a first
    decoder that fit, [initialize] raises [KeyError] only after it has
    composed the graph of identity A: that graph is the one object made,
    and no predictor and no mask is set. *)
Theorem initialize_without_second_decoder (st : model_state) (e da : obj_id)
    (enc dec_a : keras_model) (x latent in_a : tensor) :
  networks st !! "encoder" = Some e -> networks st !! "decoder_a" = Some da ->
  networks st !! "decoder_b" = None ->
  heap st !! e = Some enc -> heap st !! da = Some dec_a ->
  inputs enc = [x] -> t_shape x = input_shape (self_model st) ->
  outputs enc = [latent] ->
  inputs dec_a = [in_a] -> t_shape in_a = t_shape latent ->
  initialize st =
  (Raise KeyError,
   {| self_model := self_model st; networks := networks st;
      predictors := predictors st; masks := masks st;
      heap := <[fresh (dom (heap st)) := composed_graph (self_model st) e da dec_a]>
                (heap st) |}).
Proof.
  intros He Hda Hdb Henc Hdec_a Hin Hx Hout Hina Hsa.
  set (inp := Input (input_shape (self_model st))).
  set (lat := {| t_shape := t_shape latent;
                 t_history := (t_history inp ++ [SubNetwork e 0])%list |}).
  unfold initialize.
  rewrite (St_bind_ok _ _ _ _ _ (network_ok "decoder_a" da st Hda)).
  rewrite (St_bind_ok _ _ _ _ _ (network_ok "encoder" e st He)).
  rewrite (St_bind_ok _ _ _ _ _ (call_ok e enc x inp st Henc Hin Hx)).
  rewrite Hout. simpl imap.
  rewrite (St_bind_ok _ _ _ _ _ (call_ok da dec_a in_a lat st Hdec_a Hina Hsa)).
  erewrite St_bind_ok by reflexivity.
  unfold mbind at 1, St_bind at 1, network at 1, getitem. cbn [networks].
  rewrite Hdb. reflexivity.
Qed.

Lemma initialize_without_second_decoder_witness :
  exists g,
    initialize half_built_state =
    (Raise KeyError,
     {| self_model := self_model half_built_state;
        networks := networks half_built_state;
        predictors := predictors half_built_state;
        masks := masks half_built_state;
        heap := <[fresh (dom (heap half_built_state)) := g]> (heap half_built_state) |}).
Proof.
  eexists.
  eapply (initialize_without_second_decoder half_built_state 2%nat 0%nat);
    try (vm_compute; reflexivity).
Defined.

(** *** [initialize] on the networks of the class *)

Lemma encoder_built (self : model) (h w c : Z) (enc : keras_model) :
  input_shape self = [h; w; c] -> encoder self = Ok enc ->
  inputs enc = [Input [h; w; c]]
  /\ exists latent, outputs enc = [latent]
       /\ t_shape latent = [16; 16; encoder_dim self]%Z.
Proof.
  intros Hs. unfold encoder. rewrite Hs.
  simpl. rewrite apply_reshape_after_dense. simpl.
  intros E. injection E as <-. split; [reflexivity|].
  eexists. split; reflexivity.
Qed.

Lemma decoder_built (self : model) (dec : keras_model) :
  decoder self = Ok dec \/ decoder_HEAD self = Ok dec ->
  inputs dec = [Input [16; 16; encoder_dim self]%Z]
  /\ head (map t_shape (outputs dec)) = Some [128; 128; 3]%Z
  /\ Forall (fun s => take 2 s = [128; 128]%Z) (map t_shape (outputs dec)).
Proof.
  unfold decoder, decoder_HEAD.
  destruct (truthy (dict_get (config self) "mask_type" VNone));
    intros [E|E]; simpl in E; injection E as <-;
    (split; [reflexivity|]); (split; [reflexivity|]);
    repeat constructor.
Qed.

Lemma map_shape_imap (f : nat -> tensor -> tensor) (l : list tensor) :
  (forall k o, t_shape (f k o) = t_shape o) ->
  map t_shape (imap f l) = map t_shape l.
Proof.
  revert f. induction l as [|o l IH]; intros f Hf; [reflexivity|].
  simpl. rewrite Hf. f_equal. apply IH. intros k o'. apply Hf.
Qed.

Lemma composed_graph_shapes (self : model) (e d : obj_id) (dec : keras_model) :
  map t_shape (outputs (composed_graph self e d dec)) = map t_shape (outputs dec).
Proof. unfold composed_graph. cbn [outputs]. now apply map_shape_imap. Qed.


(** X16.  On the networks that the class builds, [initialize] returns
    for a model of any input size: each predictor takes a face of the
    input shape and a mask of the same height and width with one channel,
    and gives what its decoder gives, the face first and always of the
    shape (128, 128, 3), also where the input shape is another. *)
Theorem initialize_on_built_networks (st : model_state) (e da db : obj_id)
    (enc dec_a dec_b : keras_model) (h w c : Z) :
  input_shape (self_model st) = [h; w; c] ->
  networks st !! "encoder" = Some e -> networks st !! "decoder_a" = Some da ->
  networks st !! "decoder_b" = Some db ->
  heap st !! e = Some enc -> heap st !! da = Some dec_a -> heap st !! db = Some dec_b ->
  encoder (self_model st) = Ok enc ->
  decoder (self_model st) = Ok dec_a \/ decoder_HEAD (self_model st) = Ok dec_a ->
  decoder (self_model st) = Ok dec_b \/ decoder_HEAD (self_model st) = Ok dec_b ->
  exists st' pa pb ga gb,
    initialize st = (Ok tt, st')
    /\ predictors st' !! "a" = Some pa /\ predictors st' !! "b" = Some pb
    /\ heap st' !! pa = Some ga /\ heap st' !! pb = Some gb
    /\ map t_shape (inputs ga) = [[h; w; c]; [h; w; 1%Z]]
    /\ map t_shape (inputs gb) = [[h; w; c]; [h; w; 1%Z]]
    /\ map t_shape (outputs ga) = map t_shape (outputs dec_a)
    /\ map t_shape (outputs gb) = map t_shape (outputs dec_b)
    /\ head (map t_shape (outputs ga)) = Some [128; 128; 3]%Z
    /\ head (map t_shape (outputs gb)) = Some [128; 128; 3]%Z
    /\ map t_shape (masks st') = [[h; w; 1%Z]; [h; w; 1%Z]].
Proof.
  intros Hs He Hda Hdb Henc Hdec_a Hdec_b Eenc Ea Eb.
  destruct (encoder_built _ _ _ _ _ Hs Eenc) as (Hin & latent & Hout & Hlat).
  destruct (decoder_built _ _ Ea) as (Hina & Hfa & _).
  destruct (decoder_built _ _ Eb) as (Hinb & Hfb & _).
  assert (E := initialize_result st e da db enc dec_a dec_b
                 (Input [h; w; c]) latent
                 (Input [16; 16; encoder_dim (self_model st)]%Z)
                 (Input [16; 16; encoder_dim (self_model st)]%Z)
                 He Hda Hdb Henc Hdec_a Hdec_b Hin (eq_sym Hs) Hout
                 Hina (eq_sym Hlat) Hinb (eq_sym Hlat)).
  cbv zeta in E. rewrite Hs in E.
  eexists _, _, _, _, _. split; [exact E|]. cbn [predictors heap masks].
  split; [rewrite lookup_insert_ne by discriminate; apply lookup_insert_eq|].
  split; [apply lookup_insert_eq|].
  split.
  { rewrite lookup_insert_ne; [apply lookup_insert_eq|].
    intros Heq. apply (is_fresh (dom (<[fresh (dom (heap st)) :=
      composed_graph (self_model st) e da dec_a]> (heap st)))).
    rewrite Heq. apply elem_of_dom. rewrite lookup_insert_eq. eauto. }
  split; [apply lookup_insert_eq|].
  rewrite !composed_graph_shapes.
  unfold composed_graph. cbn [inputs]. rewrite Hs.
  repeat (split; [first [reflexivity | assumption]|]). reflexivity.
Qed.

Lemma initialize_on_built_networks_witness :
  exists st' pa pb ga gb,
    initialize built_state = (Ok tt, st')
    /\ predictors st' !! "a" = Some pa /\ predictors st' !! "b" = Some pb
    /\ heap st' !! pa = Some ga /\ heap st' !! pb = Some gb
    /\ map t_shape (inputs ga) = [[128; 128; 3]; [128; 128; 1]]%Z
    /\ map t_shape (inputs gb) = [[128; 128; 3]; [128; 128; 1]]%Z
    /\ map t_shape (outputs ga) = [[128; 128; 3]; [128; 128; 1]]%Z
    /\ map t_shape (outputs gb) = [[128; 128; 3]; [128; 128; 1]]%Z
    /\ head (map t_shape (outputs ga)) = Some [128; 128; 3]%Z
    /\ head (map t_shape (outputs gb)) = Some [128; 128; 3]%Z
    /\ map t_shape (masks st') = [[128; 128; 1]; [128; 128; 1]]%Z.
Proof.
  let enc := eval vm_compute in (default (KerasModel [] []) (heap built_state !! 2%nat)) in
  let dec_a := eval vm_compute in (default (KerasModel [] []) (heap built_state !! 0%nat)) in
  let dec_b := eval vm_compute in (default (KerasModel [] []) (heap built_state !! 1%nat)) in
  apply (initialize_on_built_networks built_state 2%nat 0%nat 1%nat enc dec_a dec_b
           128 128 3);
    first [ vm_compute; reflexivity | right; vm_compute; reflexivity ].
Defined.

(** X17.  [initialize] may be called again: the second call returns too,
    it keeps the networks, it puts two new graphs in the place of the
    predictors of the first call, and the new predictors go through the
    same encoder. *)
Theorem initialize_again (st : model_state) (e da db : obj_id) :
  composable st e da db ->
  exists st1 st2,
    initialize st = (Ok tt, st1) /\ initialize st1 = (Ok tt, st2)
    /\ networks st2 = networks st
    /\ Forall (fun r => r = Some e) (predictor_encoders st2)
    /\ (forall name p, predictors st2 !! name = Some p ->
          name = "a" \/ name = "b" -> heap st1 !! p = None).
Proof.
  intros Hc.
  destruct (composable_fits _ _ _ _ Hc) as (enc & dec_a & dec_b & _ & _ & _ & E1).
  cbv zeta in E1.
  match type of E1 with _ = (_, ?s) => set (st1 := s) in * end.
  assert (Hc1 := initialize_keeps_composable _ _ _ _ _ Hc E1).
  destruct (composable_fits _ _ _ _ Hc1) as (enc1 & dec_a1 & dec_b1 & _ & _ & _ & E2).
  cbv zeta in E2.
  match type of E2 with _ = (_, ?s) => set (st2 := s) in * end.
  destruct (shared_encoder_update _ _ _ _ enc Hc1) as (st2' & E2' & Hshare & _).
  rewrite E2 in E2'. injection E2' as <-.
  exists st1, st2. split; [exact E1|]. split; [exact E2|].
  split; [reflexivity|]. split; [exact Hshare|].
  intros name p Hp [->| ->]; unfold st2 in Hp; cbn [predictors] in Hp.
  - rewrite lookup_insert_ne, lookup_insert_eq in Hp by discriminate.
    injection Hp as <-. apply not_elem_of_dom, is_fresh.
  - rewrite lookup_insert_eq in Hp. injection Hp as <-.
    apply not_elem_of_dom, fresh_after_insert.
Qed.

Lemma initialize_again_witness :
  exists st1 st2,
    initialize built_state = (Ok tt, st1) /\ initialize st1 = (Ok tt, st2)
    /\ networks st2 = networks built_state
    /\ Forall (fun r => r = Some 2%nat) (predictor_encoders st2)
    /\ (forall name p, predictors st2 !! name = Some p ->
          name = "a" \/ name = "b" -> heap st1 !! p = None).
Proof.
  apply (initialize_again built_state 2%nat 0%nat 1%nat).
  split; [vm_compute; reflexivity|]. split; [vm_compute; reflexivity|].
  split; [vm_compute; reflexivity|].
  eexists _, _, _, _, _, _, _.
  split; [vm_compute; reflexivity|]. split; [vm_compute; reflexivity|].
  split; [vm_compute; reflexivity|].
  repeat (split; [reflexivity|]). reflexivity.
Defined.

End DflH128More.
